(** * Cline CLI: streaming decoders, state store and session controller

    A shallow embedding of the TypeScript sources

    - [SimpleApiHandler.ts]: the four provider handlers, the mock handler and
      [buildSimpleApiHandler];
    - [CliContext.ts]: the JSON-backed state store;
    - [CliController.ts]: [executeTask] and [saveToHistory];

    together with the parts of the JavaScript platform they call
    ([String.prototype.split], [TextDecoder], [JSON.parse], property access and
    truthiness). *)

From Stdlib Require Import ZArith List Bool Lia Strings.String Strings.Ascii Strings.Byte.
From Stdlib Require Import DecimalString.
From Stdlib Require Import Permutation.
Import ListNotations.

Open Scope Z_scope.

Set Warnings "-register-all".

(** ** JavaScript strings

    A JavaScript string is a sequence of UTF-16 code units. *)

Module JS.

Definition jsstring := list Z.

Definition js (s : string) : jsstring :=
  map (fun a => Z.of_N (N_of_ascii a)) (list_ascii_of_string s).

(** Source literals that contain a double quote are written with an
    apostrophe in its place; [jsq] puts the double quotes back. *)
Definition jsq (s : string) : jsstring :=
  map (fun c => if c =? 39 then 34 else c) (js s).

Fixpoint str_eqb (a b : jsstring) : bool :=
  match a, b with
  | [], [] => true
  | x :: a', y :: b' => (x =? y) && str_eqb a' b'
  | _, _ => false
  end.

(** [s.startsWith(p)] *)
Fixpoint startsWith (s p : jsstring) : bool :=
  match p, s with
  | [], _ => true
  | x :: p', y :: s' => (x =? y) && startsWith s' p'
  | _ :: _, [] => false
  end.

(** [s.slice(n)] for [0 <= n] *)
Definition slice (s : jsstring) (n : nat) : jsstring := skipn n s.

Definition LF : Z := 10.

(** [s.split] on the line feed: never empty; the last element is what follows the last
    line feed. *)
Fixpoint split_lf (s : jsstring) : list jsstring :=
  match s with
  | [] => [[]]
  | c :: s' =>
      if c =? LF then [] :: split_lf s'
      else match split_lf s' with
           | l :: ls => (c :: l) :: ls
           | [] => [[c]]
           end
  end.

(** WhiteSpace and LineTerminator code units, as stripped by [trim]. *)
Definition is_trim_space (c : Z) : bool :=
  (c =? 9) || (c =? 10) || (c =? 11) || (c =? 12) || (c =? 13) || (c =? 32)
  || (c =? 160) || (c =? 5760) || ((8192 <=? c) && (c <=? 8202))
  || (c =? 8232) || (c =? 8233) || (c =? 8239) || (c =? 8287)
  || (c =? 12288) || (c =? 65279).

Fixpoint trim_start (s : jsstring) : jsstring :=
  match s with
  | c :: s' => if is_trim_space c then trim_start s' else s
  | [] => []
  end.

Definition trim (s : jsstring) : jsstring :=
  rev (trim_start (rev (trim_start s))).

(** Decimal digits of a non-negative integer, as [String(n)] prints them. *)
Definition digits_of_N (n : N) : jsstring :=
  js (NilZero.string_of_uint (N.to_uint n)).

(** ** TextDecoder

    [new TextDecoder()] is the UTF-8 decoder of the Encoding standard in
    replacement mode, BOM not ignored.  The handlers only ever call
    [decode(value, { stream: true })], so the decoder never flushes: bytes of
    an unfinished sequence stay in the decoder state. *)

Record Utf8State := {
  code_point : Z;
  bytes_seen : Z;
  bytes_needed : Z;
  lower_boundary : Z;
  upper_boundary : Z
}.

Definition utf8_start : Utf8State :=
  {| code_point := 0; bytes_seen := 0; bytes_needed := 0;
     lower_boundary := 128; upper_boundary := 191 |}.

Definition REPLACEMENT : Z := 65533.

Definition in_range (lo hi b : Z) : bool := (lo <=? b) && (b <=? hi).

(** The handler on a byte when no sequence is open (bytes needed is 0):
    the new state and the scalar values emitted. *)
Definition utf8_lead (b : Z) : Utf8State * list Z :=
  if in_range 0 127 b then (utf8_start, [b])
  else if in_range 194 223 b then
    ({| code_point := Z.land b 31; bytes_seen := 0; bytes_needed := 1;
        lower_boundary := 128; upper_boundary := 191 |}, [])
  else if in_range 224 239 b then
    ({| code_point := Z.land b 15; bytes_seen := 0; bytes_needed := 2;
        lower_boundary := if b =? 224 then 160 else 128;
        upper_boundary := if b =? 237 then 159 else 191 |}, [])
  else if in_range 240 244 b then
    ({| code_point := Z.land b 7; bytes_seen := 0; bytes_needed := 3;
        lower_boundary := if b =? 240 then 144 else 128;
        upper_boundary := if b =? 244 then 143 else 191 |}, [])
  else (utf8_start, [REPLACEMENT]).

Definition utf8_handler (st : Utf8State) (b : Z) : Utf8State * list Z :=
  if bytes_needed st =? 0 then utf8_lead b
  else if negb (in_range (lower_boundary st) (upper_boundary st) b) then
    (* error; the byte is restored to the queue and handled afresh *)
    let '(st', out) := utf8_lead b in (st', REPLACEMENT :: out)
  else
    let cp := Z.lor (Z.shiftl (code_point st) 6) (Z.land b 63) in
    let seen := bytes_seen st + 1 in
    if seen =? bytes_needed st then (utf8_start, [cp])
    else ({| code_point := cp; bytes_seen := seen;
             bytes_needed := bytes_needed st;
             lower_boundary := 128; upper_boundary := 191 |}, []).

(** A scalar value as UTF-16 code units. *)
Definition utf16_units (cp : Z) : jsstring :=
  if cp <=? 65535 then [cp]
  else [55296 + Z.shiftr (cp - 65536) 10; 56320 + Z.land (cp - 65536) 1023].

Record TextDecoder := {
  utf8 : Utf8State;
  BOM_seen : bool
}.

Definition new_TextDecoder : TextDecoder :=
  {| utf8 := utf8_start; BOM_seen := false |}.

(** Serialising the emitted scalar values: the first one is dropped when it
    is U+FEFF. *)
Fixpoint serialize (seen : bool) (scalars : list Z) : bool * jsstring :=
  match scalars with
  | [] => (seen, [])
  | cp :: rest =>
      let '(seen', out) := serialize true rest in
      if negb seen && (cp =? 65279) then (seen', out)
      else (seen', utf16_units cp ++ out)
  end.

Definition decode_byte (d : TextDecoder) (b : byte) : TextDecoder * jsstring :=
  let '(st, scalars) := utf8_handler (utf8 d) (Z.of_N (Byte.to_N b)) in
  let '(seen, out) := serialize (BOM_seen d) scalars in
  ({| utf8 := st; BOM_seen := seen |}, out).

(** [decoder.decode(value, { stream: true })] *)
Fixpoint decode (d : TextDecoder) (value : list byte) : TextDecoder * jsstring :=
  match value with
  | [] => (d, [])
  | b :: value' =>
      let '(d1, out1) := decode_byte d b in
      let '(d2, out2) := decode d1 value' in
      (d2, out1 ++ out2)
  end.

(** ** JSON values and [JSON.parse]

    A number keeps the decimal literal it was read from: it stands for the
    double nearest to [(-1)^negative * digits * 10^exp10].  An object is the
    list of its own properties in creation order. *)

Inductive json :=
| JNull
| JBool (b : bool)
| JNumber (negative : bool) (digits : Z) (exp10 : Z)
| JString (s : jsstring)
| JArray (elements : list json)
| JObject (properties : list (jsstring * json)).

(** [CreateDataProperty]: an existing key keeps its place and takes the new
    value, a new key goes last. *)
Fixpoint define_property (props : list (jsstring * json)) (k : jsstring) (v : json)
  : list (jsstring * json) :=
  match props with
  | [] => [(k, v)]
  | (k', v') :: rest =>
      if str_eqb k' k then (k', v) :: rest
      else (k', v') :: define_property rest k v
  end.

Inductive parse_result (A : Type) :=
| OutOfFuel
| SyntaxError
| Parsed (a : A) (rest : jsstring).
Arguments OutOfFuel {A}.
Arguments SyntaxError {A}.
Arguments Parsed {A} a rest.

Definition is_json_space (c : Z) : bool :=
  (c =? 9) || (c =? 10) || (c =? 13) || (c =? 32).

Fixpoint skip_ws (s : jsstring) : jsstring :=
  match s with
  | c :: s' => if is_json_space c then skip_ws s' else s
  | [] => []
  end.

Definition is_digit (c : Z) : bool := in_range 48 57 c.

Definition hex_value (c : Z) : option Z :=
  if in_range 48 57 c then Some (c - 48)
  else if in_range 65 70 c then Some (c - 55)
  else if in_range 97 102 c then Some (c - 87)
  else None.

Definition hex4 (a b c d : Z) : option Z :=
  match hex_value a, hex_value b, hex_value c, hex_value d with
  | Some x, Some y, Some z, Some w => Some (((x * 16 + y) * 16 + z) * 16 + w)
  | _, _, _, _ => None
  end.

Definition simple_escape (c : Z) : option Z :=
  if c =? 34 then Some 34          (* quote *)
  else if c =? 92 then Some 92     (* backslash *)
  else if c =? 47 then Some 47     (* slash *)
  else if c =? 98 then Some 8      (* backspace *)
  else if c =? 102 then Some 12    (* form feed *)
  else if c =? 110 then Some 10    (* line feed *)
  else if c =? 114 then Some 13    (* carriage return *)
  else if c =? 116 then Some 9     (* tab *)
  else None.

(** The characters of a string literal, after its opening quote. *)
Fixpoint parse_string (s : jsstring) : parse_result jsstring :=
  match s with
  | [] => SyntaxError
  | c :: r =>
      if c =? 34 then Parsed [] r
      else if c =? 92 then
        match r with
        | [] => SyntaxError
        | e :: r1 =>
            match simple_escape e with
            | Some x =>
                match parse_string r1 with
                | Parsed str rest => Parsed (x :: str) rest
                | other => other
                end
            | None =>
                if e =? 117 then
                  match r1 with
                  | h1 :: h2 :: h3 :: h4 :: r2 =>
                      match hex4 h1 h2 h3 h4 with
                      | Some x =>
                          match parse_string r2 with
                          | Parsed str rest => Parsed (x :: str) rest
                          | other => other
                          end
                      | None => SyntaxError
                      end
                  | _ => SyntaxError
                  end
                else SyntaxError
            end
        end
      else if c <? 32 then SyntaxError
      else
        match parse_string r with
        | Parsed str rest => Parsed (c :: str) rest
        | other => other
        end
  end.

(** The longest run of decimal digits at the front of [s]. *)
Fixpoint take_digits (s : jsstring) : list Z * jsstring :=
  match s with
  | c :: s' =>
      if is_digit c then let '(ds, r) := take_digits s' in (c - 48 :: ds, r)
      else ([], s)
  | [] => ([], [])
  end.

Definition digits_value (ds : list Z) : Z :=
  fold_left (fun acc d => acc * 10 + d) ds 0.

Definition parse_exponent (s : jsstring) : parse_result Z :=
  match s with
  | c :: r =>
      if (c =? 101) || (c =? 69) then
        let '(neg, r1) :=
          match r with
          | sg :: r' =>
              if sg =? 45 then (true, r')
              else if sg =? 43 then (false, r')
              else (false, r)
          | [] => (false, r)
          end in
        match take_digits r1 with
        | ([], _) => SyntaxError
        | (ds, rest) =>
            Parsed (if neg then - digits_value ds else digits_value ds) rest
        end
      else Parsed 0 s
  | [] => Parsed 0 s
  end.

Definition parse_fraction (s : jsstring) : parse_result (list Z) :=
  match s with
  | c :: r =>
      if c =? 46 then
        match take_digits r with
        | ([], _) => SyntaxError
        | (ds, rest) => Parsed ds rest
        end
      else Parsed [] s
  | [] => Parsed [] s
  end.

(** The integer part of a number: a single [0], or digits that start with
    [1] to [9]. *)
Definition parse_integer (s : jsstring) : parse_result (list Z) :=
  match s with
  | c :: r =>
      if c =? 48 then Parsed [0] r
      else if in_range 49 57 c then
        let '(ds, rest) := take_digits s in Parsed ds rest
      else SyntaxError
  | [] => SyntaxError
  end.

Definition parse_number (s : jsstring) : parse_result json :=
  let '(neg, s1) :=
    match s with
    | c :: r => if c =? 45 then (true, r) else (false, s)
    | [] => (false, s)
    end in
  match parse_integer s1 with
  | Parsed ids s2 =>
      match parse_fraction s2 with
      | Parsed fds s3 =>
          match parse_exponent s3 with
          | Parsed e rest =>
              Parsed (JNumber neg (digits_value (ids ++ fds))
                              (e - Z.of_nat (List.length fds))) rest
          | _ => SyntaxError
          end
      | _ => SyntaxError
      end
  | _ => SyntaxError
  end.

Definition js_null : jsstring := js "null".
Definition js_true : jsstring := js "true".
Definition js_false : jsstring := js "false".

Fixpoint parse_value (fuel : nat) (s : jsstring) : parse_result json :=
  match fuel with
  | O => OutOfFuel
  | S fuel' =>
      match s with
      | [] => SyntaxError
      | c :: r =>
          if c =? 91 then                       (* [ *)
            match skip_ws r with
            | c1 :: r1 =>
                if c1 =? 93 then Parsed (JArray []) r1
                else parse_elements fuel' (skip_ws r) []
            | [] => SyntaxError
            end
          else if c =? 123 then                 (* { *)
            match skip_ws r with
            | c1 :: r1 =>
                if c1 =? 125 then Parsed (JObject []) r1
                else parse_members fuel' (skip_ws r) []
            | [] => SyntaxError
            end
          else if c =? 34 then
            match parse_string r with
            | Parsed str rest => Parsed (JString str) rest
            | _ => SyntaxError
            end
          else if startsWith s js_null then Parsed JNull (slice s 4)
          else if startsWith s js_true then Parsed (JBool true) (slice s 4)
          else if startsWith s js_false then Parsed (JBool false) (slice s 5)
          else parse_number s
      end
  end

with parse_elements (fuel : nat) (s : jsstring) (acc : list json)
  : parse_result json :=
  match fuel with
  | O => OutOfFuel
  | S fuel' =>
      match parse_value fuel' s with
      | Parsed v r =>
          match skip_ws r with
          | c :: r1 =>
              if c =? 44 then parse_elements fuel' (skip_ws r1) (acc ++ [v])
              else if c =? 93 then Parsed (JArray (acc ++ [v])) r1
              else SyntaxError
          | [] => SyntaxError
          end
      | other => other
      end
  end

with parse_members (fuel : nat) (s : jsstring) (acc : list (jsstring * json))
  : parse_result json :=
  match fuel with
  | O => OutOfFuel
  | S fuel' =>
      match s with
      | c :: r =>
          if c =? 34 then
            match parse_string r with
            | Parsed key r1 =>
                match skip_ws r1 with
                | c1 :: r2 =>
                    if c1 =? 58 then
                      match parse_value fuel' (skip_ws r2) with
                      | Parsed v r3 =>
                          let acc' := define_property acc key v in
                          match skip_ws r3 with
                          | c2 :: r4 =>
                              if c2 =? 44 then parse_members fuel' (skip_ws r4) acc'
                              else if c2 =? 125 then Parsed (JObject acc') r4
                              else SyntaxError
                          | [] => SyntaxError
                          end
                      | other => other
                      end
                    else SyntaxError
                | [] => SyntaxError
                end
            | _ => SyntaxError
            end
          else SyntaxError
      | [] => SyntaxError
      end
  end.

(** [JSON.parse(text)]: [None] when it throws a SyntaxError. *)
Definition JSON_parse (text : jsstring) : option json :=
  match parse_value (2 * List.length text + 2) (skip_ws text) with
  | Parsed v rest =>
      match skip_ws rest with
      | [] => Some v
      | _ :: _ => None
      end
  | _ => None
  end.

(** ** Values, truthiness and property access *)

Inductive JSValue :=
| undefined
| Json (j : json).

(** A number literal denotes zero when its digits are zero or when it is at
    most [2^-1075], half the least positive double, which rounds to [0]. *)
Definition number_is_zero (digits exp10 : Z) : bool :=
  (digits =? 0)
  || ((exp10 <? 0) && (digits * 2 ^ 1075 <=? 10 ^ (- exp10))).

Definition ToBoolean (v : JSValue) : bool :=
  match v with
  | undefined => false
  | Json JNull => false
  | Json (JBool b) => b
  | Json (JNumber _ digits exp10) => negb (number_is_zero digits exp10)
  | Json (JString s) => match s with [] => false | _ :: _ => true end
  | Json (JArray _) => true
  | Json (JObject _) => true
  end.

(** [a || b] on strings that may be undefined. *)
Definition or_else (a : option jsstring) (b : jsstring) : jsstring :=
  match a with
  | Some (c :: s) => c :: s
  | _ => b
  end.

(** A property key that is an array index: a canonical decimal numeral
    below [2^32 - 1]. *)
Definition array_index (k : jsstring) : option nat :=
  match k with
  | [] => None
  | c :: r =>
      if forallb is_digit k
         && (negb (c =? 48) || match r with [] => true | _ => false end)
      then
        let n := digits_value (map (fun d => d - 48) k) in
        if n <? 2 ^ 32 - 1 then Some (Z.to_nat n) else None
      else None
  end.

Fixpoint own_property (props : list (jsstring * json)) (k : jsstring) : JSValue :=
  match props with
  | [] => undefined
  | (k', v) :: rest => if str_eqb k' k then Json v else own_property rest k
  end.

(** [v.k] and [v[k]]: [None] stands for the TypeError thrown on [null] and
    [undefined].  Only own properties are modelled (and the indexed
    characters of a string); the handlers never read a key that a built-in
    prototype defines. *)
Definition Get (v : JSValue) (k : jsstring) : option JSValue :=
  match v with
  | undefined => None
  | Json JNull => None
  | Json (JObject props) => Some (own_property props k)
  | Json (JArray elements) =>
      Some match array_index k with
           | Some i => match nth_error elements i with
                       | Some x => Json x
                       | None => undefined
                       end
           | None => undefined
           end
  | Json (JString s) =>
      Some match array_index k with
           | Some i => match nth_error s i with
                       | Some c => Json (JString [c])
                       | None => undefined
                       end
           | None => undefined
           end
  | Json (JBool _) => Some undefined
  | Json (JNumber _ _ _) => Some undefined
  end.

(** [v?.k] *)
Definition OptGet (v : JSValue) (k : jsstring) : option JSValue :=
  match v with
  | undefined => Some undefined
  | Json JNull => Some undefined
  | _ => Get v k
  end.

(** [v === s] for a string literal [s] *)
Definition strict_eq_string (v : JSValue) (s : jsstring) : bool :=
  match v with
  | Json (JString t) => str_eqb t s
  | _ => false
  end.

(** ** Error objects *)

Record JSError := {
  name : jsstring;
  message : jsstring
}.

Definition new_Error (msg : jsstring) : JSError :=
  {| name := js "Error"; message := msg |}.

(** [Error.prototype.toString], which a template literal applies to a thrown
    error. *)
Definition Error_toString (e : JSError) : jsstring :=
  match name e, message e with
  | [], m => m
  | n, [] => n
  | n, m => n ++ js ": " ++ m
  end.

End JS.

(** ** SimpleApiHandler.ts *)

Module SimpleApiHandler.
Import JS.

Record ApiConfiguration := {
  apiProvider : option jsstring;
  apiKey : option jsstring;
  apiModelId : option jsstring;
  openAiNativeApiKey : option jsstring;
  ollamaBaseUrl : option jsstring
}.

(** What a generator yields: [{ type: "text", text }] or
    [{ type: "error", text }].  The payload of a text chunk is whatever
    value the frame held at the delta path. *)
Inductive Chunk :=
| Text (text : json)
| Error (text : jsstring).

(** *** The network as the handlers see it *)

Record Request := {
  url : jsstring;
  method : jsstring;
  headers : list (jsstring * jsstring);
  body : json          (* the value handed to JSON.stringify *)
}.

(** One [reader.read()]: a chunk of bytes, or a rejection.  When the list of
    reads is used up the next read answers [done]. *)
Inductive ReadResult :=
| ReadValue (value : list byte)
| ReadThrow (e : JSError).

Record Response := {
  status : Z;
  statusText : jsstring;
  response_body : option (list ReadResult)
}.

(** [response.ok] *)
Definition ok (r : Response) : bool := in_range 200 299 (status r).

Inductive FetchOutcome :=
| Rejects (e : JSError)
| Resolves (r : Response).

Definition Network := Request -> FetchOutcome.

(** How a block of code ends. *)
Inductive Completion :=
| Normal
| Thrown (e : JSError).

(** *** Frames

    What one line of the buffer does inside the [for] loop: the chunks it
    yields, and whether the generator returns after them. *)
Inductive LineOutcome :=
| Next (out : list Chunk)
| Return (out : list Chunk).

(** [if (parsed.type === "content_block_delta" && parsed.delta?.text) yield ...];
    [None] when the test throws. *)
Definition anthropic_delta (parsed : json) : option (list Chunk) :=
  match Get (Json parsed) (js "type") with
  | None => None
  | Some t =>
      if strict_eq_string t (js "content_block_delta") then
        match Get (Json parsed) (js "delta") with
        | None => None
        | Some delta =>
            match OptGet delta (js "text") with
            | None => None
            | Some (Json text) =>
                if ToBoolean (Json text) then Some [Text text] else Some []
            | Some undefined => Some []
            end
        end
      else Some []
  end.

(** [if (parsed.choices?.[0]?.delta?.content) yield ...] *)
Definition openai_delta (parsed : json) : option (list Chunk) :=
  match Get (Json parsed) (js "choices") with
  | None => None
  | Some choices =>
      match OptGet choices (js "0") with
      | None => None
      | Some choice =>
          match OptGet choice (js "delta") with
          | None => None
          | Some delta =>
              match OptGet delta (js "content") with
              | None => None
              | Some (Json content) =>
                  if ToBoolean (Json content) then Some [Text content]
                  else Some []
              | Some undefined => Some []
              end
          end
      end
  end.

(** The body of the [for] loop of the three server-sent-event handlers. *)
Definition sse_line (delta : json -> option (list Chunk)) (line : jsstring)
  : LineOutcome :=
  if startsWith line (js "data: ") then
    let data := slice line 6 in
    if str_eqb data (js "[DONE]") then Return []
    else
      match JSON_parse data with
      | Some parsed =>
          match delta parsed with
          | Some out => Next out
          | None => Next []       (* caught and ignored *)
          end
      | None => Next []           (* caught and ignored *)
      end
  else Next [].

(** The body of the [for] loop of the Ollama handler. *)
Definition ollama_line (line : jsstring) : LineOutcome :=
  if ToBoolean (Json (JString (trim line))) then
    match JSON_parse line with
    | None => Next []
    | Some parsed =>
        match Get (Json parsed) (js "message") with
        | None => Next []
        | Some message =>
            match OptGet message (js "content") with
            | None => Next []
            | Some content =>
                let out :=
                  match content with
                  | Json text => if ToBoolean content then [Text text] else []
                  | undefined => []
                  end in
                match Get (Json parsed) (js "done") with
                | None => Next out
                | Some done => if ToBoolean done then Return out else Next out
                end
            end
        end
    end
  else Next [].

(** [for (const line of lines) { ... }] *)
Fixpoint for_lines (line_body : jsstring -> LineOutcome) (lines : list jsstring)
  : LineOutcome :=
  match lines with
  | [] => Next []
  | line :: lines' =>
      match line_body line with
      | Return out => Return out
      | Next out =>
          match for_lines line_body lines' with
          | Next out' => Next (out ++ out')
          | Return out' => Return (out ++ out')
          end
      end
  end.

(** [while (true) { const { done, value } = await reader.read(); ... }]:
    the chunks yielded and how the loop is left. *)
Fixpoint read_loop (line_body : jsstring -> LineOutcome)
    (reads : list ReadResult) (decoder : TextDecoder) (buffer : jsstring)
  : list Chunk * Completion :=
  match reads with
  | [] => ([], Normal)
  | ReadThrow e :: _ => ([], Thrown e)
  | ReadValue value :: reads' =>
      let '(decoder', text) := decode decoder value in
      let buffer1 := buffer ++ text in
      let lines := split_lf buffer1 in
      let buffer2 := last lines [] in        (* lines.pop() || "" *)
      match for_lines line_body (removelast lines) with
      | Return out => (out, Normal)
      | Next out =>
          let '(out', c) := read_loop line_body reads' decoder' buffer2 in
          (out ++ out', c)
      end
  end.

(** The [try] block, from the answer of [fetch] on. *)
Definition try_block (line_body : jsstring -> LineOutcome) (answer : FetchOutcome)
  : list Chunk * Completion :=
  match answer with
  | Rejects e => ([], Thrown e)
  | Resolves response =>
      if negb (ok response) then
        ([], Thrown (new_Error (js "API request failed: "
                                  ++ digits_of_N (Z.to_N (status response))
                                  ++ js " " ++ statusText response)))
      else
        match response_body response with
        | None => ([], Thrown (new_Error (js "No response body")))
        | Some reads => read_loop line_body reads new_TextDecoder []
        end
  end.

(** [try { ... } catch (error) { yield { type: "error", text: `Error: ${error}` } }] *)
Definition try_catch (line_body : jsstring -> LineOutcome) (answer : FetchOutcome)
  : list Chunk :=
  match try_block line_body answer with
  | (out, Normal) => out
  | (out, Thrown e) => out ++ [Error (js "Error: " ++ Error_toString e)]
  end.

(** *** The handlers *)

Inductive SimpleApiHandler :=
| AnthropicSimpleHandler (apiKey modelId : jsstring)
| OpenAISimpleHandler (apiKey modelId : jsstring)
| SiliconFlowSimpleHandler (apiKey modelId : jsstring)
| OllamaSimpleHandler (baseUrl modelId : jsstring)
| MockSimpleHandler (config : ApiConfiguration).

Definition new_AnthropicSimpleHandler (config : ApiConfiguration) :=
  AnthropicSimpleHandler (or_else (apiKey config) [])
                         (or_else (apiModelId config) (js "claude-3-5-sonnet-20241022")).

Definition new_OpenAISimpleHandler (config : ApiConfiguration) :=
  OpenAISimpleHandler (or_else (openAiNativeApiKey config) [])
                      (or_else (apiModelId config) (js "gpt-4o")).

Definition new_SiliconFlowSimpleHandler (config : ApiConfiguration) :=
  SiliconFlowSimpleHandler (or_else (apiKey config) [])
                           (or_else (apiModelId config) (js "Qwen/Qwen2.5-7B-Instruct")).

Definition new_OllamaSimpleHandler (config : ApiConfiguration) :=
  OllamaSimpleHandler (or_else (ollamaBaseUrl config) (js "http://localhost:11434"))
                      (or_else (apiModelId config) (js "llama3.2")).

Definition message (role content : jsstring) : json :=
  JObject [(js "role", JString role); (js "content", JString content)].

Definition json_headers : jsstring * jsstring :=
  (js "Content-Type", js "application/json").

Definition chat_body (modelId systemPrompt userMessage : jsstring) : json :=
  JObject [(js "model", JString modelId);
           (js "messages", JArray [message (js "system") systemPrompt;
                                   message (js "user") userMessage]);
           (js "stream", JBool true)].

Definition request_of (h : SimpleApiHandler) (systemPrompt userMessage : jsstring)
  : option Request :=
  match h with
  | AnthropicSimpleHandler apiKey modelId =>
      Some {| url := js "https://api.anthropic.com/v1/messages";
              method := js "POST";
              headers := [json_headers; (js "x-api-key", apiKey);
                          (js "anthropic-version", js "2023-06-01")];
              body := JObject [(js "model", JString modelId);
                               (js "max_tokens", JNumber false 4096 0);
                               (js "system", JString systemPrompt);
                               (js "messages", JArray [message (js "user") userMessage]);
                               (js "stream", JBool true)] |}
  | OpenAISimpleHandler apiKey modelId =>
      Some {| url := js "https://api.openai.com/v1/chat/completions";
              method := js "POST";
              headers := [json_headers; (js "Authorization", js "Bearer " ++ apiKey)];
              body := chat_body modelId systemPrompt userMessage |}
  | SiliconFlowSimpleHandler apiKey modelId =>
      Some {| url := js "https://api.siliconflow.cn/v1/chat/completions";
              method := js "POST";
              headers := [json_headers; (js "Authorization", js "Bearer " ++ apiKey)];
              body := chat_body modelId systemPrompt userMessage |}
  | OllamaSimpleHandler baseUrl modelId =>
      Some {| url := baseUrl ++ js "/api/chat";
              method := js "POST";
              headers := [json_headers];
              body := chat_body modelId systemPrompt userMessage |}
  | MockSimpleHandler _ => None
  end.

(** The frame decoder of a handler that talks to the network. *)
Definition line_body_of (h : SimpleApiHandler) : jsstring -> LineOutcome :=
  match h with
  | AnthropicSimpleHandler _ _ => sse_line anthropic_delta
  | OpenAISimpleHandler _ _ => sse_line openai_delta
  | SiliconFlowSimpleHandler _ _ => sse_line openai_delta
  | OllamaSimpleHandler _ _ => ollama_line
  | MockSimpleHandler _ => fun _ => Next []
  end.

Definition nl : jsstring := [LF].

(** The template literal of the mock handler; an undefined provider prints
    as [undefined]. *)
Definition mock_text (config : ApiConfiguration) (userMessage : jsstring) : jsstring :=
  jsq "This is a mock response for provider '"
  ++ match apiProvider config with Some p => p | None => js "undefined" end
  ++ jsq "'. " ++ nl
  ++ nl
  ++ jsq "Your request: '" ++ userMessage ++ jsq "'" ++ nl
  ++ nl
  ++ js "To use the full Cline experience with real AI responses, please:" ++ nl
  ++ js "1. Configure a supported provider (anthropic, openai-native, or ollama)" ++ nl
  ++ js "2. Provide valid API credentials" ++ nl
  ++ js "3. Or use the VSCode extension version for full functionality" ++ nl
  ++ nl
  ++ js "Supported providers in CLI:" ++ nl
  ++ js "- anthropic: Requires API key" ++ nl
  ++ js "- openai-native: Requires API key  " ++ nl
  ++ js "- ollama: Requires local Ollama server running" ++ nl
  ++ nl
  ++ js "Current provider: " ++ or_else (apiProvider config) (js "none").

(** [handler.createMessage(systemPrompt, userMessage)], drained: the chunks
    in the order they are yielded. *)
Definition createMessage (h : SimpleApiHandler) (systemPrompt userMessage : jsstring)
    (fetch : Network) : list Chunk :=
  match h with
  | MockSimpleHandler config => [Text (JString (mock_text config userMessage))]
  | _ =>
      match request_of h systemPrompt userMessage with
      | Some request => try_catch (line_body_of h) (fetch request)
      | None => []
      end
  end.

Definition getModel (h : SimpleApiHandler) : jsstring :=
  match h with
  | AnthropicSimpleHandler _ modelId => modelId
  | OpenAISimpleHandler _ modelId => modelId
  | SiliconFlowSimpleHandler _ modelId => modelId
  | OllamaSimpleHandler _ modelId => modelId
  | MockSimpleHandler config => or_else (apiModelId config) (js "mock-model")
  end.

Definition buildSimpleApiHandler (config : ApiConfiguration) : SimpleApiHandler :=
  match apiProvider config with
  | Some p =>
      if str_eqb p (js "anthropic") then new_AnthropicSimpleHandler config
      else if str_eqb p (js "openai-native") then new_OpenAISimpleHandler config
      else if str_eqb p (js "siliconflow") then new_SiliconFlowSimpleHandler config
      else if str_eqb p (js "ollama") then new_OllamaSimpleHandler config
      else MockSimpleHandler config
  | None => MockSimpleHandler config
  end.

End SimpleApiHandler.

(** ** CliContext.ts *)

Module CliContext.
Import JS.

(** *** Map, Object.entries and Object.fromEntries *)

(** A [Map<string, any>]: its entries in insertion order, keys distinct. *)
Definition Map := list (jsstring * json).

Definition Map_get (m : Map) (k : jsstring) : JSValue := own_property m k.

Definition Map_set (m : Map) (k : jsstring) (v : json) : Map :=
  define_property m k v.

Definition Map_delete (m : Map) (k : jsstring) : Map :=
  filter (fun e => negb (str_eqb (fst e) k)) m.

(** [new Map(entries)] *)
Definition new_Map (entries : list (jsstring * json)) : Map :=
  fold_left (fun m e => Map_set m (fst e) (snd e)) entries [].

(** [Object.fromEntries(map)] *)
Definition Object_fromEntries (m : Map) : json :=
  JObject (fold_left (fun o e => define_property o (fst e) (snd e)) m []).

Fixpoint insert_index (i : nat) (e : jsstring * json)
    (l : list (nat * (jsstring * json))) : list (nat * (jsstring * json)) :=
  match l with
  | [] => [(i, e)]
  | (j, e') :: l' =>
      if (i <? j)%nat then (i, e) :: l else (j, e') :: insert_index i e l'
  end.

(** Own properties in enumeration order: array indices ascending, then the
    other keys in creation order. *)
Definition own_entries (props : list (jsstring * json)) : list (jsstring * json) :=
  map snd (fold_right (fun e acc =>
                         match array_index (fst e) with
                         | Some i => insert_index i e acc
                         | None => acc
                         end) [] props)
  ++ filter (fun e => match array_index (fst e) with
                      | Some _ => false
                      | None => true
                      end) props.

Definition index_key (i : nat) : jsstring := digits_of_N (N.of_nat i).

(** [Object.entries(v)]; [None] is the TypeError on [null]. *)
Definition Object_entries (v : json) : option (list (jsstring * json)) :=
  match v with
  | JNull => None
  | JObject props => Some (own_entries props)
  | JArray elements =>
      Some (combine (map index_key (seq 0 (List.length elements))) elements)
  | JString s =>
      Some (combine (map index_key (seq 0 (List.length s)))
                    (map (fun c => JString [c]) s))
  | JBool _ => Some []
  | JNumber _ _ _ => Some []
  end.

(** *** The files

    The context reads and writes five files.  Three sit in the global
    storage directory [~/.cline/global] besides [state.json] there, and one
    [state.json] sits in [<workspace>/.cline]; the two directories differ in
    their last component, so the five paths are distinct. *)
Inductive StorageFile :=
| global_state_json        (* ~/.cline/global/state.json *)
| workspace_state_json     (* <workspace>/.cline/state.json *)
| secrets_json             (* ~/.cline/global/secrets.json *)
| api_config_json          (* ~/.cline/global/api-config.json *)
| task_history_json.       (* ~/.cline/global/task-history.json *)

Definition StorageFile_eq_dec (a b : StorageFile) : {a = b} + {a <> b}.
Proof. decide equality. Defined.

(** What a file holds: any text, or the text [JSON.stringify(v, null, 2)]
    of a value, which [JSON.parse] reads back as [v]. *)
Inductive FileContent :=
| FileText (text : jsstring)
| Serialized (v : json).

Record Disk := {
  files : StorageFile -> option FileContent;
  read_only : StorageFile -> bool      (* writing the file fails *)
}.

(** [fs.writeFile(path, data)]; [None] when it rejects, the file then being
    left as it was. *)
Definition writeFile (d : Disk) (f : StorageFile) (data : FileContent) : option Disk :=
  if read_only d f then None
  else Some {| files := fun g => if StorageFile_eq_dec f g then Some data
                                 else files d g;
               read_only := read_only d |}.

(** [JSON.parse(await fs.readFile(path, 'utf-8'))]; [None] when either
    throws: no such file, or a SyntaxError. *)
Definition read_json (d : Disk) (f : StorageFile) : option json :=
  match files d f with
  | None => None
  | Some (FileText text) => JSON_parse text
  | Some (Serialized v) => Some v
  end.

(** *** The context *)

Record CliContext := {
  _workspaceFolder : jsstring;
  _secretStorage : Map;
  _globalState : Map;
  _workspaceState : Map
}.

(** The constructor leaves the three maps empty; [loadState] fills them
    later. *)
Definition new_CliContext (workspaceFolder : jsstring) : CliContext :=
  {| _workspaceFolder := workspaceFolder;
     _secretStorage := [];
     _globalState := [];
     _workspaceState := [] |}.

(** One [try { ... = new Map(Object.entries(JSON.parse(...))) } catch { }] *)
Definition load_map (d : Disk) (f : StorageFile) (current : Map) : Map :=
  match read_json d f with
  | Some v =>
      match Object_entries v with
      | Some entries => new_Map entries
      | None => current
      end
  | None => current
  end.

Definition loadState (c : CliContext) (d : Disk) : CliContext :=
  {| _workspaceFolder := _workspaceFolder c;
     _secretStorage := load_map d secrets_json (_secretStorage c);
     _globalState := load_map d global_state_json (_globalState c);
     _workspaceState := load_map d workspace_state_json (_workspaceState c) |}.

(** [saveState]: the disk afterwards, and whether the warning was printed. *)
Definition saveState (c : CliContext) (d : Disk) : Disk * bool :=
  match writeFile d global_state_json
                  (Serialized (Object_fromEntries (_globalState c))) with
  | None => (d, true)
  | Some d1 =>
      match writeFile d1 workspace_state_json
                      (Serialized (Object_fromEntries (_workspaceState c))) with
      | None => (d1, true)
      | Some d2 =>
          match writeFile d2 secrets_json
                          (Serialized (Object_fromEntries (_secretStorage c))) with
          | None => (d2, true)
          | Some d3 => (d3, false)
          end
      end
  end.

Definition workspaceState_get (c : CliContext) (key : jsstring) : JSValue :=
  Map_get (_workspaceState c) key.

Definition workspaceState_update (c : CliContext) (d : Disk) (key : jsstring) (value : json)
  : CliContext * Disk :=
  let c' := {| _workspaceFolder := _workspaceFolder c;
               _secretStorage := _secretStorage c;
               _globalState := _globalState c;
               _workspaceState := Map_set (_workspaceState c) key value |} in
  (c', fst (saveState c' d)).

Definition globalState_get (c : CliContext) (key : jsstring) : JSValue :=
  Map_get (_globalState c) key.

Definition globalState_update (c : CliContext) (d : Disk) (key : jsstring) (value : json)
  : CliContext * Disk :=
  let c' := {| _workspaceFolder := _workspaceFolder c;
               _secretStorage := _secretStorage c;
               _globalState := Map_set (_globalState c) key value;
               _workspaceState := _workspaceState c |} in
  (c', fst (saveState c' d)).

Definition secrets_get (c : CliContext) (key : jsstring) : JSValue :=
  Map_get (_secretStorage c) key.

Definition secrets_store (c : CliContext) (d : Disk) (key value : jsstring)
  : CliContext * Disk :=
  let c' := {| _workspaceFolder := _workspaceFolder c;
               _secretStorage := Map_set (_secretStorage c) key (JString value);
               _globalState := _globalState c;
               _workspaceState := _workspaceState c |} in
  (c', fst (saveState c' d)).

Definition secrets_delete (c : CliContext) (d : Disk) (key : jsstring)
  : CliContext * Disk :=
  let c' := {| _workspaceFolder := _workspaceFolder c;
               _secretStorage := Map_delete (_secretStorage c) key;
               _globalState := _globalState c;
               _workspaceState := _workspaceState c |} in
  (c', fst (saveState c' d)).

Definition workspaceFolder (c : CliContext) : jsstring := _workspaceFolder c.

(** [getApiConfiguration]: the parsed file, or [null]. *)
Definition getApiConfiguration (d : Disk) : json :=
  match read_json d api_config_json with
  | Some config => config
  | None => JNull
  end.

(** [getTaskHistory]: the parsed file, or [[]]. *)
Definition getTaskHistory (d : Disk) : json :=
  match read_json d task_history_json with
  | Some history => history
  | None => JArray []
  end.

(** [saveApiConfiguration]; [None] when the write fails and the method
    throws. *)
Definition saveApiConfiguration (d : Disk) (config : json) : option Disk :=
  writeFile d api_config_json (Serialized config).

(** [saveTaskHistory]: a failed write only prints a warning. *)
Definition saveTaskHistory (d : Disk) (history : json) : Disk :=
  match writeFile d task_history_json (Serialized history) with
  | Some d' => d'
  | None => d
  end.

(** [dispose] *)
Definition dispose (c : CliContext) (d : Disk) : Disk * bool := saveState c d.

End CliContext.

(** ** CliController.ts *)

Module CliController.
Import JS SimpleApiHandler CliContext.

Record CliController := {
  context : CliContext;
  apiConfiguration : ApiConfiguration;
  apiHandler : SimpleApiHandler
}.

Definition new_CliController (context : CliContext) (apiConfiguration : ApiConfiguration)
  : CliController :=
  {| context := context;
     apiConfiguration := apiConfiguration;
     apiHandler := buildSimpleApiHandler apiConfiguration |}.

Definition zero : json := JNumber false 0 0.

(** The [historyItem] literal of [saveToHistory]; [now_id] and [now_ts] are
    what the two calls of [Date.now()] return. *)
Definition historyItem (now_id now_ts : N) (task : jsstring) : json :=
  JObject [(js "id", JString (digits_of_N now_id));
           (js "ts", JNumber false (Z.of_N now_ts) 0);
           (js "task", JString task);
           (js "tokensIn", zero);
           (js "tokensOut", zero);
           (js "cacheWrites", zero);
           (js "cacheReads", zero);
           (js "totalCost", zero);
           (js "isFavorited", JBool false)].

(** [saveToHistory(task, response)].  When the history file holds a value
    without an [unshift] method the call throws, and the [catch] only prints
    a warning. *)
Definition saveToHistory (now_id now_ts : N) (task response : jsstring) (d : Disk) : Disk :=
  match getTaskHistory d with
  | JArray history =>
      saveTaskHistory d (JArray (firstn 100 (historyItem now_id now_ts task :: history)))
  | _ => d
  end.

Definition systemPrompt_for (workspaceFolder : jsstring) : jsstring :=
  js "You are Cline, an AI coding assistant. You help users with programming tasks, file operations, and code analysis."
  ++ nl ++ nl
  ++ js "Current working directory: " ++ workspaceFolder
  ++ nl ++ nl
  ++ js "Please help the user with their request. Be concise and helpful. If you need to perform file operations or run commands, explain what you would do but note that this is a simplified CLI version.".

(** [for await (const chunk of stream) { ... }]: what went to standard
    output and the response gathered, or [None] when
    [process.stdout.write] throws because the payload is no string. *)
Fixpoint consume (stream : list Chunk) (stdout response : jsstring)
  : option (jsstring * jsstring) :=
  match stream with
  | [] => Some (stdout, response)
  | Text (JString text) :: stream' =>
      consume stream' (stdout ++ text) (response ++ text)
  | Text _ :: _ => None
  | Error text :: stream' =>
      consume stream' stdout (response ++ text)
  end.

Inductive TaskResult :=
| Completed (stdout response : jsstring) (d : Disk)   (* emits completed *)
| Failed.                                              (* rethrows *)

Definition executeTask (c : CliController) (fetch : Network) (now_id now_ts : N)
    (description : jsstring) (d : Disk) : TaskResult :=
  let systemPrompt := systemPrompt_for (workspaceFolder (context c)) in
  let stream := createMessage (apiHandler c) systemPrompt description fetch in
  match consume stream [] [] with
  | Some (stdout, response) =>
      Completed stdout response (saveToHistory now_id now_ts description response d)
  | None => Failed
  end.

(** [sendMessage] *)
Definition sendMessage (c : CliController) (fetch : Network) (now_id now_ts : N)
    (message : jsstring) (d : Disk) : TaskResult :=
  executeTask c fetch now_id now_ts message d.

End CliController.

(** ** Notions used to state the properties *)

Module Notions.
Import JS SimpleApiHandler CliContext CliController.

(** The lines a buffer holds in full, and what follows its last line feed. *)
Definition complete_lines (s : jsstring) : list jsstring := removelast (split_lf s).
Definition last_segment (s : jsstring) : jsstring := last (split_lf s) [].

(** The text a fresh decoder makes of a byte sequence. *)
Definition decoded (value : list byte) : jsstring := snd (decode new_TextDecoder value).

Definition chunks (o : LineOutcome) : list Chunk :=
  match o with
  | Next out => out
  | Return out => out
  end.

Definition returns (o : LineOutcome) : bool :=
  match o with
  | Next _ => false
  | Return _ => true
  end.

(** A network that answers every request with the response [r]. *)
Definition answering (r : Response) : Network := fun _ => Resolves r.

Definition with_body (r : Response) (reads : list ReadResult) : Response :=
  {| status := status r; statusText := statusText r; response_body := Some reads |}.

Definition talks_to_network (h : SimpleApiHandler) : bool :=
  match h with
  | MockSimpleHandler _ => false
  | _ => true
  end.

Definition is_Text (c : Chunk) : bool :=
  match c with
  | Text _ => true
  | Error _ => false
  end.

Definition is_Error (c : Chunk) : bool := negb (is_Text c).

(** Continuing a loop after the chunks [out]. *)
Definition after (out : list Chunk) (o : LineOutcome) : LineOutcome :=
  match o with
  | Next out' => Next (out ++ out')
  | Return out' => Return (out ++ out')
  end.

(** The bytes of a text of ASCII characters. *)
Definition bytes_of (s : jsstring) : list byte :=
  map (fun c => match Byte.of_N (Z.to_N c) with Some b => b | None => x00 end) s.

Definition OK_response : Response :=
  {| status := 200; statusText := js "OK"; response_body := None |}.

(** The text of the Error chunk for a response whose status is no success. *)
Definition status_message (r : Response) : jsstring :=
  js "Error: Error: API request failed: " ++ digits_of_N (Z.to_N (status r))
  ++ js " " ++ statusText r.

(** The text of the Error chunk for a thrown error. *)
Definition error_text (e : JSError) : jsstring := js "Error: " ++ Error_toString e.

(** The end-of-stream sentinel of each provider: the data line [[DONE]] for
    the server-sent-event handlers, a frame whose [done] field is [true] for
    Ollama. *)
Definition end_sentinel (h : SimpleApiHandler) (line : jsstring) : Prop :=
  match h with
  | OllamaSimpleHandler _ _ =>
      exists props, JSON_parse line = Some (JObject props)
                    /\ own_property props (js "done") = Json (JBool true)
  | MockSimpleHandler _ => False
  | _ => line = js "data: [DONE]"
  end.

Definition is_Ollama (h : SimpleApiHandler) : bool :=
  match h with
  | OllamaSimpleHandler _ _ => true
  | _ => false
  end.

(** The frame a line carries: what follows the [data: ] prefix for the
    server-sent-event handlers, the line itself for Ollama. *)
Definition frame_of (h : SimpleApiHandler) (line : jsstring) : option jsstring :=
  match h with
  | OllamaSimpleHandler _ _ => Some line
  | MockSimpleHandler _ => None
  | _ => if startsWith line (js "data: ") then Some (slice line 6) else None
  end.

(** Where each provider puts the text delta. *)
Definition delta_path (h : SimpleApiHandler) : list jsstring :=
  match h with
  | AnthropicSimpleHandler _ _ => [js "delta"; js "text"]
  | OpenAISimpleHandler _ _ => [js "choices"; js "0"; js "delta"; js "content"]
  | SiliconFlowSimpleHandler _ _ => [js "choices"; js "0"; js "delta"; js "content"]
  | OllamaSimpleHandler _ _ => [js "message"; js "content"]
  | MockSimpleHandler _ => []
  end.

(** The value found by following a path of keys; [undefined] when a key is
    missing on the way. *)
Fixpoint path_value (v : JSValue) (path : list jsstring) : JSValue :=
  match path with
  | [] => v
  | k :: path' =>
      match Get v k with
      | Some x => path_value x path'
      | None => undefined
      end
  end.

(** A frame that fails to parse as JSON and is not the sentinel line. *)
Definition malformed (h : SimpleApiHandler) (line : jsstring) : Prop :=
  exists data, frame_of h line = Some data
               /\ JSON_parse data = None
               /\ (is_Ollama h = false -> data <> js "[DONE]").

(** A frame that parses but has nothing at the delta path. *)
Definition lacks_delta (h : SimpleApiHandler) (line : jsstring) : Prop :=
  exists data v, frame_of h line = Some data
                 /\ JSON_parse data = Some v
                 /\ path_value (Json v) (delta_path h) = undefined.

(** The events on which a provider sends its delta: Anthropic sends it on
    [content_block_delta] events, the others on every frame. *)
Definition delta_event (h : SimpleApiHandler) (v : json) : Prop :=
  match h with
  | AnthropicSimpleHandler _ _ =>
      path_value (Json v) [js "type"] = Json (JString (js "content_block_delta"))
  | _ => True
  end.

(** A well-formed frame that carries the string [d] as its text delta. *)
Definition carries_delta (h : SimpleApiHandler) (line d : jsstring) : Prop :=
  exists data v, frame_of h line = Some data
                 /\ JSON_parse data = Some v
                 /\ delta_event h v
                 /\ path_value (Json v) (delta_path h) = Json (JString d).

(** The claim on text deltas as the specification words it: every frame
    that carries a string at the delta path yields exactly one Text chunk
    with that string. *)
Definition every_string_delta_yields : Prop :=
  forall (h : SimpleApiHandler) (line d : jsstring),
    carries_delta h line d ->
    chunks (line_body_of h line) = [Text (JString d)].

(** The provider identifiers [buildSimpleApiHandler] knows. *)
Definition known_provider (p : jsstring) : Prop :=
  p = js "anthropic" \/ p = js "openai-native" \/ p = js "siliconflow"
  \/ p = js "ollama".

(** How a template literal prints the provider of a configuration. *)
Definition printed_provider (config : ApiConfiguration) : jsstring :=
  match apiProvider config with
  | Some p => p
  | None => js "undefined"
  end.

Definition mentions (text p : jsstring) : Prop :=
  exists before behind, text = before ++ p ++ behind.

(** A file that is missing, or whose text is no JSON text (as when it was
    cut short). *)
Definition unreadable (d : Disk) (f : StorageFile) : Prop :=
  files d f = None
  \/ exists text, files d f = Some (FileText text) /\ JSON_parse text = None.

(** The three state files hold the images of the three maps of [c]. *)
Definition holds_images (c : CliContext) (d : Disk) : Prop :=
  files d global_state_json
  = Some (Serialized (Object_fromEntries (_globalState c)))
  /\ files d workspace_state_json
     = Some (Serialized (Object_fromEntries (_workspaceState c)))
  /\ files d secrets_json
     = Some (Serialized (Object_fromEntries (_secretStorage c))).

Definition state_writable (d : Disk) : Prop :=
  read_only d global_state_json = false
  /\ read_only d workspace_state_json = false
  /\ read_only d secrets_json = false.

(** One call of [saveToHistory]: the two clock readings and the arguments. *)
Record Call := {
  call_now_id : N;
  call_now_ts : N;
  call_task : jsstring;
  call_response : jsstring
}.

Definition record_of (k : Call) : json :=
  historyItem (call_now_id k) (call_now_ts k) (call_task k).

Definition save_all (calls : list Call) (d : Disk) : Disk :=
  fold_left (fun d k => saveToHistory (call_now_id k) (call_now_ts k)
                                      (call_task k) (call_response k) d)
            calls d.

End Notions.

(** ** index.ts *)

Module Index.
Import JS SimpleApiHandler CliContext CliController.

(** The options commander hands to the [chat] and [task] actions. *)
Record Options := {
  options_directory : jsstring;
  options_config : option jsstring;
  options_apiKey : option jsstring;
  options_model : option jsstring;
  options_provider : option jsstring;
  options_autoApprove : bool
}.

(** An option that is set to a string that is not empty: what [if (x)] and
    [x && y] test. *)
Definition given (o : option jsstring) : option jsstring :=
  match o with
  | Some (c :: s) => Some (c :: s)
  | _ => None
  end.

Definition property (k : jsstring) (v : option jsstring) : list (jsstring * json) :=
  match v with
  | Some s => [(k, JString s)]
  | None => []
  end.

(** The literal [{ apiProvider, apiKey, apiModelId } as ApiConfiguration];
    a property whose value is undefined is left out, as it reads the same
    and is not serialised. *)
Definition config_literal (provider apiKey model : option jsstring) : json :=
  JObject (property (js "apiProvider") provider
           ++ property (js "apiKey") apiKey
           ++ property (js "apiModelId") model).

(** [loadApiConfiguration(options, context)].  [elsewhere] is the content
    of the file at a path given with [--config]. *)
Definition loadApiConfiguration (options : Options)
    (elsewhere : jsstring -> option FileContent) (d : Disk) : json :=
  match given (options_apiKey options), given (options_provider options) with
  | Some key, Some provider =>
      config_literal (Some provider) (Some key) (options_model options)
  | _, _ =>
      let stored := getApiConfiguration d in
      match given (options_config options) with
      | Some path =>
          match elsewhere path with
          | Some (FileText text) =>
              match JSON_parse text with
              | Some config => config
              | None => stored          (* warning printed *)
              end
          | Some (Serialized config) => config
          | None => stored              (* warning printed *)
          end
      | None => stored
      end
  end.

(** A field of a configuration read as the TypeScript type has it: a string
    or undefined. *)
Definition string_field (v : json) (k : jsstring) : option jsstring :=
  match Get (Json v) k with
  | Some (Json (JString s)) => Some s
  | _ => None
  end.

Definition ApiConfiguration_of (v : json) : ApiConfiguration :=
  {| apiProvider := string_field v (js "apiProvider");
     apiKey := string_field v (js "apiKey");
     apiModelId := string_field v (js "apiModelId");
     openAiNativeApiKey := string_field v (js "openAiNativeApiKey");
     ollamaBaseUrl := string_field v (js "ollamaBaseUrl") |}.

(** The table of [getDefaultModel]. *)
Definition defaults : list (jsstring * json) :=
  [(js "anthropic", JString (js "claude-3-5-sonnet-20241022"));
   (js "openai-native", JString (js "gpt-4o"));
   (js "siliconflow", JString (js "Qwen/Qwen2.5-7B-Instruct"));
   (js "openrouter", JString (js "anthropic/claude-3.5-sonnet"));
   (js "gemini", JString (js "gemini-1.5-pro-latest"));
   (js "ollama", JString (js "llama3.2"))].

(** [defaults[provider] || ''] *)
Definition getDefaultModel (provider : jsstring) : jsstring :=
  match own_property defaults provider with
  | Json (JString (c :: s)) => c :: s
  | _ => []
  end.

(** What the three prompts of [configureSettings] answer. *)
Record Answers := {
  answers_provider : jsstring;
  answers_apiKey : option jsstring;
  answers_model : jsstring
}.

(** The values of the provider list. *)
Definition choices : list jsstring :=
  [js "anthropic"; js "openai-native"; js "siliconflow"; js "openrouter";
   js "gemini"; js "ollama"].

(** The answers the prompts can give: the provider is one of the list; the
    key is asked for unless the provider is [ollama], and an answer that is
    blank is refused. *)
Definition possible (a : Answers) : Prop :=
  In (answers_provider a) choices
  /\ match answers_apiKey a with
     | Some key => answers_provider a <> js "ollama" /\ trim key <> []
     | None => answers_provider a = js "ollama"
     end.

(** The [apiConfig] literal of [configureSettings]. *)
Definition configured (a : Answers) : json :=
  config_literal (Some (answers_provider a)) (answers_apiKey a)
                 (Some (match answers_model a with
                        | [] => getDefaultModel (answers_provider a)
                        | c :: m => c :: m
                        end)).

(** [configureSettings]; [None] when saving throws. *)
Definition configureSettings (a : Answers) (d : Disk) : option Disk :=
  saveApiConfiguration d (configured a).

Inductive Outcome :=
| Configures (d : option Disk)      (* no configuration: configureSettings runs *)
| Runs (r : TaskResult).

(** [executeTask(description, options)] of the [task] command; [workingDir]
    is [path.resolve(options.directory)], and [a] what the prompts answer
    if they are shown. *)
Definition executeTask (description : jsstring) (options : Options)
    (workingDir : jsstring) (elsewhere : jsstring -> option FileContent)
    (a : Answers) (fetch : Network) (now_id now_ts : N) (d : Disk) : Outcome :=
  let context := new_CliContext workingDir in
  let apiConfig := loadApiConfiguration options elsewhere d in
  if ToBoolean (Json apiConfig) then
    Runs (CliController.executeTask
            (new_CliController context (ApiConfiguration_of apiConfig))
            fetch now_id now_ts description d)
  else Configures (configureSettings a d).

End Index.

(** ** ui/InteractiveChat.ts

    The chat reacts to events: a line read, the controller's [completed]
    event, a rejected [sendMessage], an interrupt.  Each handler runs to its
    first [await] before the next event is looked at, so the chat is a
    transition system on its one flag.  [exit] awaits [dispose] before it
    closes the interface and ends the process; until then events are still
    handled. *)

Module InteractiveChat.
Import JS.

Section Chat.

(** [String.prototype.toLowerCase] *)
Variable toLowerCase : jsstring -> jsstring.

Definition exitCommands : list jsstring :=
  [js "exit"; js "quit"; js "q"; js "bye"].

Definition isExitCommand (input : jsstring) : bool :=
  existsb (str_eqb (toLowerCase input)) exitCommands.

Record InteractiveChat := {
  isWaitingForResponse : bool;
  exited : bool                (* [process.exit(0)] was reached *)
}.

Definition new_InteractiveChat : InteractiveChat :=
  {| isWaitingForResponse := false; exited := false |}.

Inductive Event :=
| Line (input : jsstring)     (* readline [line] *)
| Completed                   (* the controller emits [completed] *)
| Cancelled                   (* the controller emits [cancelled] *)
| ControllerError             (* the controller emits [error] *)
| Rejected                    (* [sendMessage] rejects *)
| SIGINT
| Disposed.                   (* the [dispose] awaited by [exit] has settled *)

Inductive Action :=
| Prompt                      (* rl.prompt() *)
| WaitNotice                  (* Please wait for the current response ... *)
| SendMessage (message : jsstring)
| Exit.                       (* [exit] is called: goodbye, then [dispose] *)

(** [showPrompt] *)
Definition showPrompt (c : InteractiveChat) : list Action :=
  if isWaitingForResponse c then [] else [Prompt].

Definition waiting (w : bool) : InteractiveChat :=
  {| isWaitingForResponse := w; exited := false |}.

(** One event: the chat afterwards and what it did. *)
Definition on_event (c : InteractiveChat) (e : Event) : InteractiveChat * list Action :=
  if exited c then (c, [])
  else
    match e with
    | Line input =>
        let trimmedInput := trim input in
        if isExitCommand trimmedInput then (c, [Exit])
        else if isWaitingForResponse c then (c, WaitNotice :: showPrompt c)
        else
          match trimmedInput with
          | [] => (c, showPrompt c)
          | _ :: _ => (waiting true, [SendMessage trimmedInput])
          end
    | Completed => (waiting false, showPrompt (waiting false))
    | Cancelled => (waiting false, showPrompt (waiting false))
    | ControllerError => (waiting false, showPrompt (waiting false))
    | Rejected => (waiting false, showPrompt (waiting false))
    | SIGINT => (c, [Exit])
    | Disposed =>
        ({| isWaitingForResponse := isWaitingForResponse c; exited := true |}, [])
    end.

Fixpoint run (c : InteractiveChat) (events : list Event) : list Action :=
  match events with
  | [] => []
  | e :: events' =>
      let '(c', actions) := on_event c e in
      actions ++ run c' events'
  end.

End Chat.

End InteractiveChat.

(** ** Further notions used to state properties *)

Module Further.
Import JS SimpleApiHandler CliContext CliController Notions.

(** The keys of a map are distinct. *)
Definition distinct_keys (m : Map) : Prop := NoDup (map fst m).

Definition well_formed (c : CliContext) : Prop :=
  distinct_keys (_globalState c) /\ distinct_keys (_workspaceState c)
  /\ distinct_keys (_secretStorage c).


(** A well-formed frame with the value [v] at the delta path. *)
Definition carries_value (h : SimpleApiHandler) (line : jsstring) (v : json) : Prop :=
  exists data parsed, frame_of h line = Some data
                      /\ JSON_parse data = Some parsed
                      /\ delta_event h parsed
                      /\ path_value (Json parsed) (delta_path h) = Json v.







(** Lines, each followed by a line feed. *)
Definition join_lines (lines : list jsstring) : jsstring :=
  List.concat (map (fun l => l ++ [LF]) lines).

Definition ascii_text (s : jsstring) : Prop := Forall (fun c => 0 <= c < 128) s.

Definition no_LF (s : jsstring) : Prop := ~ In LF s.

Definition count_sends (actions : list InteractiveChat.Action) : nat :=
  List.length (filter (fun a => match a with
                                | InteractiveChat.SendMessage _ => true
                                | _ => false
                                end) actions).

Definition count_finished (events : list InteractiveChat.Event) : nat :=
  List.length (filter (fun e => match e with
                                | InteractiveChat.Completed => true
                                | InteractiveChat.Cancelled => true
                                | InteractiveChat.ControllerError => true
                                | InteractiveChat.Rejected => true
                                | _ => false
                                end) events).

(** A JSON value that is an array. *)
Definition is_array (v : json) : bool :=
  match v with
  | JArray _ => true
  | _ => false
  end.

(** A chunk that is no Text chunk with a falsy payload. *)
Definition truthy_payload (c : Chunk) : bool :=
  match c with
  | Text v => ToBoolean (Json v)
  | Error _ => true
  end.

(** A line that is no frame: for the server-sent-event handlers a line that
    does not start with [data: ] (an empty line, an [event:] line, a
    comment), for Ollama a line of white space only. *)
Definition no_frame (h : SimpleApiHandler) (line : jsstring) : Prop :=
  match h with
  | OllamaSimpleHandler _ _ => trim line = []
  | MockSimpleHandler _ => False
  | _ => startsWith line (js "data: ") = false
  end.


(** The model identifier [configureSettings] stores. *)
Definition stored_model (a : Index.Answers) : jsstring :=
  match Index.answers_model a with
  | [] => Index.getDefaultModel (Index.answers_provider a)
  | c :: m => c :: m
  end.

(** The handler the controller builds for what [configureSettings] stored. *)
Definition handler_for (a : Index.Answers) : SimpleApiHandler :=
  buildSimpleApiHandler (Index.ApiConfiguration_of (Index.configured a)).

Section ChatNotions.

Variable toLowerCase : jsstring -> jsstring.

(** The turns the chat may still start before one finishes. *)
Definition free_turns (c : InteractiveChat.InteractiveChat) : nat :=
  if InteractiveChat.exited c then 0
  else if InteractiveChat.isWaitingForResponse c then 0 else 1.

(** What may be sent: a line, trimmed, that is neither empty nor an exit
    command. *)
Definition sendable (events : list InteractiveChat.Event) (a : InteractiveChat.Action)
  : Prop :=
  match a with
  | InteractiveChat.SendMessage m =>
      m <> [] /\ InteractiveChat.isExitCommand toLowerCase m = false
      /\ exists input, In (InteractiveChat.Line input) events /\ m = trim input
  | _ => True
  end.

End ChatNotions.

End Further.

Import JS SimpleApiHandler CliContext CliController Notions.
Import Further.

(** Case analysis on the scrutinee of a [match] of the goal. *)
Ltac break_match :=
  match goal with
  | |- context [match ?x with _ => _ end] => destruct x eqn:?
  end.

(** The same on the scrutinee of a [match] of a hypothesis. *)
Ltac split_match H :=
  match type of H with
  | context [match ?x with _ => _ end] => destruct x eqn:?
  end.

(** ** Strings *)

Lemma str_eqb_eq (a b : jsstring) : str_eqb a b = true <-> a = b.
Proof.
  revert b; induction a as [|x a IH]; intros [|y b]; simpl; split;
    try congruence; try reflexivity.
  - intros H. apply andb_true_iff in H as [H1 H2].
    apply Z.eqb_eq in H1. apply IH in H2. congruence.
  - intros H. injection H as -> ->. rewrite Z.eqb_refl. simpl. now apply IH.
Qed.

Lemma str_eqb_refl (a : jsstring) : str_eqb a a = true.
Proof. now apply str_eqb_eq. Qed.

Lemma str_eqb_neq (a b : jsstring) : a <> b -> str_eqb a b = false.
Proof.
  intros H. destruct (str_eqb a b) eqn:E; [|reflexivity].
  apply str_eqb_eq in E. contradiction.
Qed.

Lemma startsWith_app (p s : jsstring) : startsWith (p ++ s) p = true.
Proof.
  induction p as [|x p IH]; simpl.
  - now destruct s.
  - now rewrite Z.eqb_refl.
Qed.

Lemma slice_app (p s : jsstring) : slice (p ++ s) (List.length p) = s.
Proof. unfold slice. induction p; simpl; auto. Qed.

(** ** [JSON.parse] has fuel enough

    The parser is given fuel of twice the length of the text, which it never
    uses up: when [JSON_parse] answers [None], the text is no JSON text. *)

Lemma skip_ws_length (s : jsstring) : (List.length (skip_ws s) <= List.length s)%nat.
Proof.
  induction s as [|c s IH]; simpl; [lia|].
  destruct (is_json_space c); simpl; lia.
Qed.

Lemma take_digits_length (s : jsstring) (ds : list Z) (r : jsstring) :
  take_digits s = (ds, r) -> (List.length r <= List.length s)%nat.
Proof.
  revert ds r; induction s as [|c s IH]; simpl; intros ds r H.
  - injection H as <- <-. simpl. lia.
  - destruct (is_digit c).
    + destruct (take_digits s) as [ds' r'] eqn:E. injection H as <- <-.
      specialize (IH _ _ eq_refl). lia.
    + injection H as <- <-. simpl. lia.
Qed.

Lemma parse_string_length (n : nat) :
  forall (s str r : jsstring),
    (List.length s < n)%nat ->
    parse_string s = Parsed str r -> (List.length r < List.length s)%nat.
Proof.
  induction n as [|n IH]; intros s str r Hn H; [lia|].
  destruct s as [|c s]; [discriminate|]. simpl in H.
  destruct (c =? 34).
  { injection H as <- <-. simpl. lia. }
  destruct (c =? 92).
  - destruct s as [|e s1]; [discriminate|].
    destruct (simple_escape e).
    + destruct (parse_string s1) as [| |str' r'] eqn:E; try discriminate.
      injection H as <- <-. apply IH in E; simpl in *; lia.
    + destruct (e =? 117); [|discriminate].
      destruct s1 as [|h1 [|h2 [|h3 [|h4 s2]]]]; try discriminate.
      destruct (hex4 h1 h2 h3 h4); [|discriminate].
      destruct (parse_string s2) as [| |str' r'] eqn:E; try discriminate.
      injection H as <- <-. apply IH in E; simpl in *; lia.
  - destruct (c <? 32); [discriminate|].
    destruct (parse_string s) as [| |str' r'] eqn:E; try discriminate.
    injection H as <- <-. apply IH in E; simpl in *; lia.
Qed.

Lemma parse_exponent_length (s : jsstring) (e : Z) (r : jsstring) :
  parse_exponent s = Parsed e r -> (List.length r <= List.length s)%nat.
Proof.
  unfold parse_exponent. intros H.
  destruct s as [|c s]; [injection H as <- <-; simpl; lia|].
  destruct ((c =? 101) || (c =? 69)); [|injection H as <- <-; simpl; lia].
  destruct s as [|sg s'].
  - simpl in H. discriminate.
  - destruct (sg =? 45); [|destruct (sg =? 43)];
      match type of H with
      | context [take_digits ?x] =>
          destruct (take_digits x) as [[|d ds] r'] eqn:E; [discriminate|];
          injection H as <- <-; apply take_digits_length in E; simpl in *; lia
      end.
Qed.

Lemma parse_fraction_length (s : jsstring) (ds : list Z) (r : jsstring) :
  parse_fraction s = Parsed ds r -> (List.length r <= List.length s)%nat.
Proof.
  unfold parse_fraction. intros H.
  destruct s as [|c s]; [injection H as <- <-; simpl; lia|].
  destruct (c =? 46); [|injection H as <- <-; simpl; lia].
  destruct (take_digits s) as [[|d ds'] r'] eqn:E; [discriminate|].
  injection H as <- <-. apply take_digits_length in E. simpl. lia.
Qed.

Lemma parse_integer_length (s : jsstring) (ids : list Z) (r : jsstring) :
  parse_integer s = Parsed ids r -> (List.length r < List.length s)%nat.
Proof.
  unfold parse_integer. intros H. destruct s as [|c r0]; [discriminate|].
  destruct (c =? 48); [injection H as <- <-; simpl; lia|].
  destruct (in_range 49 57 c) eqn:Hr; [|discriminate].
  simpl in H. unfold is_digit in H.
  replace (in_range 48 57 c) with true in H by (unfold in_range in *; lia).
  destruct (take_digits r0) as [ds rest] eqn:E. injection H as <- <-.
  apply take_digits_length in E. simpl. lia.
Qed.

Lemma parse_number_length (s : jsstring) (v : json) (r : jsstring) :
  parse_number s = Parsed v r -> (List.length r < List.length s)%nat.
Proof.
  unfold parse_number. intros H.
  assert (Hs : exists neg s1,
             match s with
             | c :: r => if c =? 45 then (true, r) else (false, s)
             | [] => (false, s)
             end = (neg, s1) /\ (List.length s1 <= List.length s)%nat).
  { destruct s as [|c s']; [eexists; eexists; split; [reflexivity|lia]|].
    destruct (c =? 45); eexists; eexists; (split; [reflexivity|simpl; lia]). }
  destruct Hs as (neg & s1 & Es & Hl). rewrite Es in H.
  destruct (parse_integer s1) as [| |ids s2] eqn:Ei; try discriminate.
  destruct (parse_fraction s2) as [| |fds s3] eqn:Ef; try discriminate.
  destruct (parse_exponent s3) as [| |e rest] eqn:Ee; try discriminate.
  injection H as <- <-.
  apply parse_integer_length in Ei. apply parse_fraction_length in Ef.
  apply parse_exponent_length in Ee. lia.
Qed.

Lemma parse_string_shorter (s str r : jsstring) :
  parse_string s = Parsed str r -> (List.length r < List.length s)%nat.
Proof. apply (parse_string_length (S (List.length s))). lia. Qed.

(** Collects what is known of the lengths of the remaining inputs. *)
Ltac length_facts :=
  repeat match goal with
         | E : skip_ws ?a = _ |- _ =>
             let L := fresh "L" in
             pose proof (skip_ws_length a) as L; rewrite E in L; clear E
         | E : parse_string _ = Parsed _ _ |- _ => apply parse_string_shorter in E
         | E : parse_number _ = Parsed _ _ |- _ => apply parse_number_length in E
         | H : context [List.length (skip_ws ?a)] |- _ =>
             lazymatch goal with
             | _ : (List.length (skip_ws a) <= List.length a)%nat |- _ => fail
             | _ => pose proof (skip_ws_length a)
             end
         | |- context [List.length (skip_ws ?a)] =>
             lazymatch goal with
             | _ : (List.length (skip_ws a) <= List.length a)%nat |- _ => fail
             | _ => pose proof (skip_ws_length a)
             end
         end.

Lemma parse_shorter (fuel : nat) :
  (forall s v r, parse_value fuel s = Parsed v r ->
                 (List.length r < List.length s)%nat)
  /\ (forall s acc v r, parse_elements fuel s acc = Parsed v r ->
                        (List.length r < List.length s)%nat)
  /\ (forall s acc v r, parse_members fuel s acc = Parsed v r ->
                        (List.length r < List.length s)%nat).
Proof.
  induction fuel as [|fuel (IHv & IHe & IHm)].
  { repeat split; intros; discriminate. }
  split; [|split].
  - intros s v r H. simpl in H.
    repeat (split_match H; try discriminate);
      try (injection H as <- <-);
      try (apply IHe in H); try (apply IHm in H);
      length_facts; unfold slice in *; try rewrite length_skipn;
      simpl in *; lia.
  - intros s acc v r H. simpl in H.
    destruct (parse_value fuel s) as [| |v1 r1] eqn:Ev; try discriminate.
    apply IHv in Ev.
    repeat (split_match H; try discriminate);
      try (injection H as <- <-);
      try (apply IHe in H);
      length_facts; simpl in *; lia.
  - intros s acc v r H. simpl in H.
    destruct s as [|c s]; [discriminate|].
    destruct (c =? 34); [|discriminate].
    destruct (parse_string s) as [| |key r1] eqn:Ek; try discriminate.
    destruct (skip_ws r1) as [|c1 r2] eqn:E1; [discriminate|].
    destruct (c1 =? 58); [|discriminate].
    destruct (parse_value fuel (skip_ws r2)) as [| |v1 r3] eqn:Ev; try discriminate.
    apply IHv in Ev. pose proof (skip_ws_length r2).
    destruct (skip_ws r3) as [|c2 r4] eqn:E3; [discriminate|].
    destruct (c2 =? 44).
    + apply IHm in H. pose proof (skip_ws_length r4). length_facts. simpl in *. lia.
    + destruct (c2 =? 125); [|discriminate].
      injection H as <- <-. length_facts. simpl in *. lia.
Qed.

Lemma parse_number_fuel (s : jsstring) : parse_number s <> OutOfFuel.
Proof.
  unfold parse_number. intros H.
  repeat (split_match H; try discriminate).
Qed.

(** A value that was parsed used up some input. *)
Ltac use_shorter fuel :=
  repeat match goal with
         | E : parse_value fuel _ = Parsed _ _ |- _ =>
             apply (proj1 (parse_shorter fuel)) in E
         end.

(** Fuel of twice the length of the text is never used up. *)
Lemma parse_fuel (fuel : nat) :
  (forall s, (2 * List.length s + 1 <= fuel)%nat -> parse_value fuel s <> OutOfFuel)
  /\ (forall s acc, (2 * List.length s + 2 <= fuel)%nat ->
                    parse_elements fuel s acc <> OutOfFuel)
  /\ (forall s acc, (2 * List.length s + 2 <= fuel)%nat ->
                    parse_members fuel s acc <> OutOfFuel).
Proof.
  induction fuel as [|fuel (IHv & IHe & IHm)].
  { repeat split; intros; lia. }
  split; [|split].
  - intros s Hf H. simpl in H.
    repeat (split_match H; try discriminate);
      try (now apply parse_number_fuel in H);
      first [apply IHe in H | apply IHm in H]; try exact H;
      length_facts; simpl in *; lia.
  - intros s acc Hf H. simpl in H.
    destruct (parse_value fuel s) as [| |v1 r1] eqn:Ev; try discriminate.
    + apply IHv in Ev; [exact Ev | lia].
    + use_shorter fuel.
      repeat (split_match H; try discriminate).
      apply IHe in H; [exact H|]. length_facts. simpl in *. lia.
  - intros s acc Hf H. simpl in H.
    destruct s as [|c s]; [discriminate|].
    destruct (c =? 34); [|discriminate].
    destruct (parse_string s) as [| |key r1] eqn:Ek; try discriminate.
    destruct (skip_ws r1) as [|c1 r2] eqn:E1; [discriminate|].
    destruct (c1 =? 58); [|discriminate].
    pose proof (skip_ws_length r2).
    destruct (parse_value fuel (skip_ws r2)) as [| |v1 r3] eqn:Ev; try discriminate.
    + apply IHv in Ev; [exact Ev|]. length_facts. simpl in *. lia.
    + use_shorter fuel.
      destruct (skip_ws r3) as [|c2 r4] eqn:E3; [discriminate|].
      destruct (c2 =? 44).
      * apply IHm in H; [exact H|]. pose proof (skip_ws_length r4).
        length_facts. simpl in *. lia.
      * destruct (c2 =? 125); discriminate.
Qed.

(** [JSON_parse] never fails for lack of fuel: [None] is a SyntaxError. *)
Lemma JSON_parse_fuel (text : jsstring) :
  parse_value (2 * List.length text + 2) (skip_ws text) <> OutOfFuel.
Proof.
  apply (proj1 (parse_fuel _)). pose proof (skip_ws_length text). lia.
Qed.

(** ** Splitting into lines *)

Lemma split_lf_not_nil (s : jsstring) : split_lf s <> [].
Proof.
  destruct s as [|c s]; simpl; [discriminate|].
  destruct (c =? LF); [discriminate|].
  destruct (split_lf s); discriminate.
Qed.

Lemma split_lf_last (s : jsstring) :
  split_lf s = complete_lines s ++ [last_segment s].
Proof. apply app_removelast_last, split_lf_not_nil. Qed.

Lemma split_lf_cons (c : Z) (s : jsstring) :
  split_lf (c :: s) =
  if c =? LF then [] :: split_lf s
  else match complete_lines s with
       | [] => [c :: last_segment s]
       | l :: ls => (c :: l) :: ls ++ [last_segment s]
       end.
Proof.
  simpl. destruct (c =? LF); [reflexivity|].
  rewrite (split_lf_last s) at 1.
  destruct (complete_lines s); reflexivity.
Qed.

Lemma complete_lines_cons (c : Z) (s : jsstring) :
  complete_lines (c :: s) =
  if c =? LF then [] :: complete_lines s
  else match complete_lines s with
       | [] => []
       | l :: ls => (c :: l) :: ls
       end.
Proof.
  unfold complete_lines at 1. rewrite split_lf_cons.
  destruct (c =? LF).
  - rewrite (split_lf_last s) at 1.
    change ([] :: complete_lines s ++ [last_segment s])
      with (([] :: complete_lines s) ++ [last_segment s]).
    now rewrite removelast_last.
  - destruct (complete_lines s) as [|l ls]; [reflexivity|].
    change ((c :: l) :: ls ++ [last_segment s])
      with (((c :: l) :: ls) ++ [last_segment s]).
    now rewrite removelast_last.
Qed.

Lemma last_segment_cons (c : Z) (s : jsstring) :
  last_segment (c :: s) =
  if c =? LF then last_segment s
  else match complete_lines s with
       | [] => c :: last_segment s
       | _ :: _ => last_segment s
       end.
Proof.
  unfold last_segment at 1. rewrite split_lf_cons.
  destruct (c =? LF).
  - rewrite (split_lf_last s) at 1.
    change ([] :: complete_lines s ++ [last_segment s])
      with (([] :: complete_lines s) ++ [last_segment s]).
    now rewrite last_last.
  - destruct (complete_lines s) as [|l ls]; [reflexivity|].
    change ((c :: l) :: ls ++ [last_segment s])
      with (((c :: l) :: ls) ++ [last_segment s]).
    now rewrite last_last.
Qed.

(** Text appended to a buffer adds to its complete lines the complete lines
    of the old trailing fragment followed by the new text. *)
Lemma complete_lines_app (a b : jsstring) :
  complete_lines (a ++ b) = complete_lines a ++ complete_lines (last_segment a ++ b).
Proof.
  induction a as [|c a IH]; [reflexivity|].
  rewrite <- app_comm_cons, !complete_lines_cons, last_segment_cons, IH.
  destruct (c =? LF) eqn:E; [reflexivity|].
  destruct (complete_lines a) as [|l ls]; simpl.
  - rewrite complete_lines_cons, E. reflexivity.
  - reflexivity.
Qed.

Lemma last_segment_app (a b : jsstring) :
  last_segment (a ++ b) = last_segment (last_segment a ++ b).
Proof.
  induction a as [|c a IH]; [reflexivity|].
  rewrite <- app_comm_cons, !last_segment_cons, complete_lines_app, IH.
  destruct (c =? LF) eqn:E; [reflexivity|].
  destruct (complete_lines a) as [|l ls]; simpl.
  - rewrite last_segment_cons, E. reflexivity.
  - reflexivity.
Qed.

(** The trailing fragment holds no line feed, so on its own it has no
    complete line. *)
Lemma complete_lines_last_segment (s : jsstring) :
  complete_lines (last_segment s) = [].
Proof.
  induction s as [|c s IH]; [reflexivity|].
  rewrite last_segment_cons.
  destruct (c =? LF) eqn:E; [exact IH|].
  destruct (complete_lines s) eqn:Es; [|exact IH].
  rewrite complete_lines_cons, E, IH. reflexivity.
Qed.

Lemma last_segment_idem (s : jsstring) :
  last_segment (last_segment s) = last_segment s.
Proof.
  induction s as [|c s IH]; [reflexivity|].
  rewrite last_segment_cons.
  destruct (c =? LF) eqn:E; [exact IH|].
  destruct (complete_lines s) eqn:Es; [|exact IH].
  rewrite last_segment_cons, E, complete_lines_last_segment, IH. reflexivity.
Qed.

(** ** The decoder and the loops *)

Lemma decode_app (d : TextDecoder) (a b : list byte) :
  decode d (a ++ b) =
  let '(d1, t1) := decode d a in
  let '(d2, t2) := decode d1 b in
  (d2, t1 ++ t2).
Proof.
  revert d; induction a as [|x a IH]; intros d; simpl.
  - now destruct (decode d b).
  - destruct (decode_byte d x) as [d0 t0]. rewrite IH.
    destruct (decode d0 a) as [d1 t1]. destruct (decode d1 b) as [d2 t2].
    now rewrite app_assoc.
Qed.

Lemma decoded_eq (value : list byte) :
  decode new_TextDecoder value = (fst (decode new_TextDecoder value), decoded value).
Proof. unfold decoded. now destruct (decode new_TextDecoder value). Qed.

Lemma createMessage_network (h : SimpleApiHandler) (sp um : jsstring) (fetch : Network) :
  talks_to_network h = true ->
  exists request,
    request_of h sp um = Some request /\
    createMessage h sp um fetch = try_catch (line_body_of h) (fetch request).
Proof.
  destruct h; simpl; try discriminate; intros _; eexists; split; reflexivity.
Qed.

(** The two loops, for any loop body. *)
Section Loops.

Variable lb : jsstring -> LineOutcome.

Lemma for_lines_app (l1 l2 : list jsstring) :
  for_lines lb (l1 ++ l2) =
  match for_lines lb l1 with
  | Return out => Return out
  | Next out => after out (for_lines lb l2)
  end.
Proof.
  induction l1 as [|l l1 IH]; simpl.
  - now destruct (for_lines lb l2).
  - destruct (lb l) as [o|o]; [|reflexivity].
    rewrite IH. destruct (for_lines lb l1) as [o1|o1]; [|reflexivity].
    destruct (for_lines lb l2) as [o2|o2]; simpl; now rewrite app_assoc.
Qed.

(** Reads that deliver bytes act on the buffer like one read of all their
    bytes: the lines run through the loop body are the complete lines of the
    text decoded so far, up to the first one that returns. *)
Lemma read_loop_values (bs : list (list byte)) (tail : list ReadResult) :
  forall (dec : TextDecoder) (buf : jsstring),
    last_segment buf = buf ->
    read_loop lb (map ReadValue bs ++ tail) dec buf =
    let '(dec', text) := decode dec (List.concat bs) in
    match for_lines lb (complete_lines (buf ++ text)) with
    | Return out => (out, Normal)
    | Next out =>
        let '(out', c) := read_loop lb tail dec' (last_segment (buf ++ text)) in
        (out ++ out', c)
    end.
Proof.
  induction bs as [|b bs IH]; intros dec buf Hbuf.
  - simpl. rewrite app_nil_r, Hbuf.
    assert (E : complete_lines buf = [])
      by (rewrite <- Hbuf; apply complete_lines_last_segment).
    rewrite E. simpl. now destruct (read_loop lb tail dec buf).
  - simpl map. simpl List.concat. rewrite <- app_comm_cons. simpl read_loop.
    rewrite decode_app.
    destruct (decode dec b) as [d1 t1].
    fold (complete_lines (buf ++ t1)). fold (last_segment (buf ++ t1)).
    rewrite (IH d1 (last_segment (buf ++ t1))) by apply last_segment_idem.
    destruct (decode d1 (List.concat bs)) as [d2 t2].
    rewrite (app_assoc buf t1 t2).
    rewrite (complete_lines_app (buf ++ t1) t2), (last_segment_app (buf ++ t1) t2).
    rewrite for_lines_app.
    destruct (for_lines lb (complete_lines (buf ++ t1))) as [o1|o1]; [|reflexivity].
    destruct (for_lines lb (complete_lines (last_segment (buf ++ t1) ++ t2)))
      as [o2|o2]; simpl.
    + destruct (read_loop lb tail d2 _) as [o3 c]. now rewrite app_assoc.
    + reflexivity.
Qed.

(** What the [try] block does with a body whose reads all deliver bytes. *)
Lemma read_loop_all_values (bs : list (list byte)) :
  read_loop lb (map ReadValue bs) new_TextDecoder [] =
  (chunks (for_lines lb (complete_lines (decoded (List.concat bs)))), Normal).
Proof.
  rewrite <- (app_nil_r (map ReadValue bs)).
  rewrite read_loop_values by reflexivity.
  rewrite decoded_eq. simpl app.
  destruct (for_lines lb _); simpl; [now rewrite app_nil_r | reflexivity].
Qed.

Lemma try_catch_values (r : Response) (bs : list (list byte)) :
  ok r = true ->
  try_catch lb (Resolves (with_body r (map ReadValue bs))) =
  chunks (for_lines lb (complete_lines (decoded (List.concat bs)))).
Proof.
  intros Hok. unfold try_catch, try_block, with_body, ok in *. simpl.
  rewrite Hok. simpl. now rewrite read_loop_all_values.
Qed.

(** The loop returns at the first line whose body returns. *)
Lemma for_lines_until (pre post : list jsstring) (s : jsstring) (own : list Chunk) :
  lb s = Return own ->
  returns (for_lines lb (pre ++ [s])) = true
  /\ for_lines lb (pre ++ s :: post) = for_lines lb (pre ++ [s]).
Proof.
  intros Hs.
  assert (R : returns (for_lines lb (pre ++ [s])) = true).
  { rewrite for_lines_app. simpl. rewrite Hs.
    now destruct (for_lines lb pre). }
  split; [exact R|].
  change (s :: post) with ([s] ++ post). rewrite app_assoc.
  rewrite (for_lines_app (pre ++ [s]) post).
  now destruct (for_lines lb (pre ++ [s])).
Qed.

(** A line whose body yields nothing and goes on can be left out. *)
Lemma for_lines_skip (pre post : list jsstring) (m : jsstring) :
  lb m = Next [] -> for_lines lb (pre ++ m :: post) = for_lines lb (pre ++ post).
Proof.
  intros Hm. rewrite !for_lines_app. simpl. rewrite Hm.
  destruct (for_lines lb pre); [|reflexivity].
  destruct (for_lines lb post); reflexivity.
Qed.

End Loops.

(** The chunks of a handler that talks to the network, when every read
    delivers bytes. *)
Lemma createMessage_values (h : SimpleApiHandler) (sp um : jsstring) (r : Response)
    (bs : list (list byte)) :
  ok r = true ->
  talks_to_network h = true ->
  createMessage h sp um (answering (with_body r (map ReadValue bs))) =
  chunks (for_lines (line_body_of h) (complete_lines (decoded (List.concat bs)))).
Proof.
  intros Hok Hn.
  destruct (createMessage_network h sp um
              (answering (with_body r (map ReadValue bs))) Hn) as (rq & _ & ->).
  unfold answering. now apply try_catch_values.
Qed.

(** ** The scenarios of the specification, run *)

Example anthropic_two_frames :
  createMessage (AnthropicSimpleHandler (js "key") (js "model")) [] []
    (answering (with_body OK_response
       [ReadValue (bytes_of
          (jsq "data: {'type':'content_block_delta','delta':{'text':'Hi'}}"
           ++ nl ++ nl ++ js "data: [DONE]" ++ nl ++ nl))]))
  = [Text (JString (js "Hi"))].
Proof. reflexivity. Qed.

Example ollama_two_objects :
  createMessage (OllamaSimpleHandler (js "http://localhost:11434") (js "llama3.2")) [] []
    (answering (with_body OK_response
       [ReadValue (bytes_of (jsq "{'message':{'content':'Hel'}}" ++ nl));
        ReadValue (bytes_of (jsq "{'message':{'content':'lo'},'done':true}" ++ nl))]))
  = [Text (JString (js "Hel")); Text (JString (js "lo"))].
Proof. reflexivity. Qed.

(** The last line of a body that does not end in a line feed is never
    decoded. *)
Example unterminated_last_line :
  createMessage (OllamaSimpleHandler (js "http://localhost:11434") (js "llama3.2")) [] []
    (answering (with_body OK_response
       [ReadValue (bytes_of (jsq "{'message':{'content':'Hel'}}" ++ nl));
        ReadValue (bytes_of (jsq "{'message':{'content':'lo'},'done':true}"))]))
  = [Text (JString (js "Hel"))].
Proof. reflexivity. Qed.

(** A character whose bytes arrive in two reads is decoded whole: the two
    bytes of U+00E9. *)
Example character_split_over_reads :
  createMessage (OllamaSimpleHandler (js "http://localhost:11434") (js "llama3.2")) [] []
    (answering (with_body OK_response
       [ReadValue (bytes_of (jsq "{'message':{'content':'caf") ++ [xc3]);
        ReadValue ([xa9] ++ bytes_of (jsq "'}}" ++ nl))]))
  = [Text (JString (js "caf" ++ [233]))].
Proof. reflexivity. Qed.

Example status_500 :
  createMessage (SiliconFlowSimpleHandler (js "key") (js "model")) [] []
    (answering {| status := 500; statusText := js "Internal Server Error";
                  response_body := None |})
  = [Error (js "Error: Error: API request failed: 500 Internal Server Error")].
Proof. reflexivity. Qed.

(** ** C1: decoding does not depend on how the stream is split *)

(** C1. Whatever the reads a response body is cut into, a handler yields the
    chunks it yields when the whole body arrives in one read.  For a handler
    that talks to the network these are the chunks of the complete lines of
    the decoded text: what follows the last line feed stays in the buffer and
    is not handed to the frame decoder. *)
Theorem C1_split_invariant :
  forall (h : SimpleApiHandler) (sp um : jsstring) (r : Response)
         (bs : list (list byte)),
    ok r = true ->
    createMessage h sp um (answering (with_body r (map ReadValue bs))) =
    createMessage h sp um (answering (with_body r [ReadValue (List.concat bs)]))
    /\ (talks_to_network h = true ->
        createMessage h sp um (answering (with_body r (map ReadValue bs))) =
        chunks (for_lines (line_body_of h) (complete_lines (decoded (List.concat bs))))).
Proof.
  intros h sp um r bs Hok.
  destruct (talks_to_network h) eqn:Hn.
  - pose proof (fun bs' => createMessage_values h sp um r bs' Hok Hn) as E.
    split; [|intros _; apply E].
    rewrite E. change [ReadValue (List.concat bs)] with (map ReadValue [List.concat bs]).
    rewrite E. simpl. now rewrite app_nil_r.
  - split; [|discriminate]. destruct h; try discriminate. reflexivity.
Qed.

Lemma C1_split_invariant_witness :
  let h := AnthropicSimpleHandler (js "key") (js "model") in
  let stream :=
    bytes_of (jsq "data: {'type':'content_block_delta','delta':{'text':'Hi'}}"
              ++ nl ++ nl ++ js "data: [DONE]" ++ nl ++ nl) in
  let bs := [firstn 20 stream; firstn 30 (skipn 20 stream); skipn 50 stream] in
  createMessage h [] [] (answering (with_body OK_response (map ReadValue bs))) =
  createMessage h [] [] (answering (with_body OK_response [ReadValue (List.concat bs)]))
  /\ createMessage h [] [] (answering (with_body OK_response (map ReadValue bs))) =
     chunks (for_lines (line_body_of h) (complete_lines (decoded (List.concat bs)))).
Proof.
  intros h stream bs.
  destruct (C1_split_invariant h [] [] OK_response bs eq_refl) as [H1 H2].
  split; [exact H1 | exact (H2 eq_refl)].
Defined.

(** ** C2: a fault becomes one Error chunk *)

Lemma anthropic_delta_text (parsed : json) (out : list Chunk) :
  anthropic_delta parsed = Some out -> forallb is_Text out = true.
Proof.
  unfold anthropic_delta. intros H.
  repeat match type of H with
         | context [match ?x with _ => _ end] => destruct x eqn:?
         end; try discriminate; injection H as <-; reflexivity.
Qed.

Lemma openai_delta_text (parsed : json) (out : list Chunk) :
  openai_delta parsed = Some out -> forallb is_Text out = true.
Proof.
  unfold openai_delta. intros H.
  repeat match type of H with
         | context [match ?x with _ => _ end] => destruct x eqn:?
         end; try discriminate; injection H as <-; reflexivity.
Qed.

Lemma sse_line_text (delta : json -> option (list Chunk)) (line : jsstring) :
  (forall parsed out, delta parsed = Some out -> forallb is_Text out = true) ->
  forallb is_Text (chunks (sse_line delta line)) = true.
Proof.
  intros Hd. unfold sse_line.
  repeat (break_match; try reflexivity). simpl. eauto.
Qed.

Lemma ollama_line_text (line : jsstring) :
  forallb is_Text (chunks (ollama_line line)) = true.
Proof.
  unfold ollama_line. repeat (break_match; try reflexivity).
Qed.

(** No frame decoder ever yields an Error chunk. *)
Lemma line_body_text (h : SimpleApiHandler) (line : jsstring) :
  forallb is_Text (chunks (line_body_of h line)) = true.
Proof.
  destruct h; simpl; try reflexivity; try apply ollama_line_text;
    apply sse_line_text; first [apply anthropic_delta_text | apply openai_delta_text].
Qed.

(** A loop body that yields only Text chunks makes loops that yield only
    Text chunks; the one Error chunk comes from the [catch] clause. *)
Section TextOnly.

Variable lb : jsstring -> LineOutcome.
Hypothesis lb_text : forall line, forallb is_Text (chunks (lb line)) = true.

Lemma for_lines_text (lines : list jsstring) :
  forallb is_Text (chunks (for_lines lb lines)) = true.
Proof.
  induction lines as [|l lines IH]; simpl; [reflexivity|].
  pose proof (lb_text l) as Hl. destruct (lb l) as [o|o]; simpl in *; [|exact Hl].
  destruct (for_lines lb lines) as [o'|o']; simpl in *;
    rewrite forallb_app, Hl, IH; reflexivity.
Qed.

Lemma read_loop_text (reads : list ReadResult) :
  forall dec buf, forallb is_Text (fst (read_loop lb reads dec buf)) = true.
Proof.
  induction reads as [|[value|e] reads IH]; intros dec buf; simpl;
    try reflexivity.
  destruct (decode dec value) as [dec' text].
  pose proof (for_lines_text (removelast (split_lf (buf ++ text)))) as Hf.
  destruct (for_lines lb _) as [o|o]; simpl in *; [|exact Hf].
  specialize (IH dec' (last (split_lf (buf ++ text)) [])).
  destruct (read_loop lb reads dec' _) as [o' c]. simpl in *.
  now rewrite forallb_app, Hf, IH.
Qed.

Lemma try_block_text (answer : FetchOutcome) :
  forallb is_Text (fst (try_block lb answer)) = true.
Proof.
  unfold try_block.
  destruct answer as [e|r]; [reflexivity|].
  destruct (negb (ok r)); [reflexivity|].
  destruct (response_body r); [|reflexivity].
  now apply read_loop_text.
Qed.

Lemma try_catch_shape (answer : FetchOutcome) :
  exists texts tail,
    try_catch lb answer = texts ++ tail
    /\ forallb is_Text texts = true
    /\ (tail = [] \/ exists e, tail = [Error (error_text e)]).
Proof.
  unfold try_catch.
  pose proof (try_block_text answer) as Ht.
  destruct (try_block lb answer) as [out [|e]]; simpl in Ht.
  - exists out, []. rewrite app_nil_r. auto.
  - exists out, [Error (error_text e)]. eauto.
Qed.

End TextOnly.

(** C2. For a handler that sends a request: a response whose status is no
    success, a rejected [fetch] and a missing body each give exactly one
    Error chunk and no Text chunk; a read that rejects gives the Text chunks
    decoded before it followed by exactly one Error chunk.  In every case the
    chunks are Text chunks followed by at most one Error chunk, which ends
    the sequence: the fault is turned into a chunk and the generator itself
    completes. *)
Theorem C2_fault_yields_one_error :
  forall (h : SimpleApiHandler) (sp um : jsstring) (fetch : Network) (request : Request),
    request_of h sp um = Some request ->
    (forall r, fetch request = Resolves r -> ok r = false ->
               createMessage h sp um fetch = [Error (status_message r)])
    /\ (forall e, fetch request = Rejects e ->
                  createMessage h sp um fetch = [Error (error_text e)])
    /\ (forall r, fetch request = Resolves r -> ok r = true ->
                  response_body r = None ->
                  createMessage h sp um fetch =
                  [Error (js "Error: Error: No response body")])
    /\ (forall r bs e rest texts,
           fetch request = Resolves r -> ok r = true ->
           response_body r = Some (map ReadValue bs ++ ReadThrow e :: rest) ->
           for_lines (line_body_of h) (complete_lines (decoded (List.concat bs)))
           = Next texts ->
           createMessage h sp um fetch = texts ++ [Error (error_text e)]
           /\ forallb is_Text texts = true)
    /\ (exists texts tail,
           createMessage h sp um fetch = texts ++ tail
           /\ forallb is_Text texts = true
           /\ (tail = [] \/ exists e, tail = [Error (error_text e)])).
Proof.
  intros h sp um fetch request Hrq.
  assert (Hn : talks_to_network h = true) by (destruct h; try reflexivity; discriminate).
  destruct (createMessage_network h sp um fetch Hn) as (rq & Hrq' & ->).
  assert (rq = request) as -> by congruence. clear Hrq'.
  split; [|split; [|split; [|split]]].
  - intros r Hr Hok. rewrite Hr. unfold try_catch, try_block. rewrite Hok. simpl negb.
    reflexivity.
  - intros e He. rewrite He. reflexivity.
  - intros r Hr Hok Hb. rewrite Hr. unfold try_catch, try_block.
    rewrite Hok, Hb. reflexivity.
  - intros r bs e rest texts Hr Hok Hb Hl. rewrite Hr. unfold try_catch, try_block.
    rewrite Hok, Hb. simpl negb. cbv iota.
    rewrite read_loop_values by reflexivity.
    rewrite decoded_eq. simpl app. rewrite Hl. simpl. rewrite app_nil_r.
    split; [reflexivity|].
    pose proof (for_lines_text (line_body_of h) (line_body_text h)
                  (complete_lines (decoded (List.concat bs)))) as Ht.
    now rewrite Hl in Ht.
  - apply try_catch_shape, line_body_text.
Qed.

Lemma C2_fault_yields_one_error_witness :
  let h := OpenAISimpleHandler (js "key") (js "gpt-4o") in
  let not_found := {| status := 404; statusText := js "Not Found";
                      response_body := None |} in
  createMessage h [] (js "hi") (answering not_found) =
  [Error (js "Error: Error: API request failed: 404 Not Found")].
Proof.
  intros h not_found.
  destruct (C2_fault_yields_one_error h [] (js "hi") (answering not_found) _ eq_refl)
    as [H _].
  exact (H not_found eq_refl eq_refl).
Defined.

(** ** C3: the end sentinel *)

Lemma trim_start_spaces (s : jsstring) :
  forallb is_trim_space s = true -> trim_start s = [].
Proof.
  induction s as [|c s IH]; simpl; [reflexivity|].
  destruct (is_trim_space c); simpl; [exact IH | discriminate].
Qed.

Lemma trim_start_head (s : jsstring) :
  forallb is_trim_space s = false ->
  exists c r, trim_start s = c :: r /\ is_trim_space c = false.
Proof.
  induction s as [|c s IH]; simpl; [discriminate|].
  destruct (is_trim_space c) eqn:E; simpl; [exact IH | eauto].
Qed.

Lemma trim_start_keeps (s : jsstring) (c : Z) :
  In c s -> is_trim_space c = false -> trim_start s <> [].
Proof.
  induction s as [|x s IH]; simpl; [contradiction|].
  intros [->|Hin] Hc.
  - rewrite Hc. discriminate.
  - destruct (is_trim_space x); [auto | discriminate].
Qed.

Lemma trim_not_empty (s : jsstring) :
  forallb is_trim_space s = false -> trim s <> [].
Proof.
  intros H. destruct (trim_start_head s H) as (c & r & E & Hc).
  unfold trim. rewrite E. intros Hnil.
  apply (f_equal (@rev Z)) in Hnil. rewrite rev_involutive in Hnil. simpl in Hnil.
  revert Hnil. apply (trim_start_keeps _ c); [|exact Hc].
  apply in_or_app. right. now left.
Qed.

Lemma skip_ws_spaces (s : jsstring) :
  forallb is_trim_space s = true -> forallb is_trim_space (skip_ws s) = true.
Proof.
  induction s as [|c s IH]; simpl; [reflexivity|].
  intros H. apply andb_true_iff in H as [Hc Hs].
  destruct (is_json_space c); [auto|]. simpl. now rewrite Hc, Hs.
Qed.

Lemma parse_value_space (fuel : nat) (c : Z) (r : jsstring) :
  is_trim_space c = true -> parse_value (S fuel) (c :: r) = SyntaxError.
Proof.
  intros Hc.
  assert (Hcases : c = 9 \/ c = 10 \/ c = 11 \/ c = 12 \/ c = 13 \/ c = 32
                   \/ c = 160 \/ c = 5760 \/ (8192 <= c <= 8202) \/ c = 8232
                   \/ c = 8233 \/ c = 8239 \/ c = 8287 \/ c = 12288 \/ c = 65279).
  { unfold is_trim_space in Hc.
    repeat (apply orb_true_iff in Hc as [Hc|Hc]);
      try (apply Z.eqb_eq in Hc); lia. }
  assert (E : forall k, k < 9 \/ 13 < k < 32 \/ 32 < k < 160 -> (c =? k) = false)
    by (intros k Hk; apply Z.eqb_neq; lia).
  unfold parse_value; fold parse_value.
  rewrite (E 91), (E 123), (E 34) by lia.
  change js_null with [110; 117; 108; 108].
  change js_true with [116; 114; 117; 101].
  change js_false with [102; 97; 108; 115; 101].
  unfold startsWith.
  rewrite (Z.eqb_sym 110), (Z.eqb_sym 116), (Z.eqb_sym 102).
  rewrite (E 110), (E 116), (E 102) by lia. simpl.
  unfold parse_number, parse_integer. rewrite (E 45), (E 48) by lia.
  replace (in_range 49 57 c) with false; [reflexivity|].
  symmetry. unfold in_range. apply andb_false_iff. rewrite Z.leb_gt, Z.leb_gt. lia.
Qed.

(** A text of white space only is no JSON text. *)
Lemma JSON_parse_spaces (s : jsstring) :
  forallb is_trim_space s = true -> JSON_parse s = None.
Proof.
  intros H. apply skip_ws_spaces in H. unfold JSON_parse.
  replace (2 * List.length s + 2)%nat with (S (2 * List.length s + 1))%nat by lia.
  destruct (skip_ws s) as [|c r]; [reflexivity|].
  simpl in H. apply andb_true_iff in H as [Hc _].
  now rewrite parse_value_space.
Qed.

Lemma JSON_parse_trim (s : jsstring) (v : json) :
  JSON_parse s = Some v -> ToBoolean (Json (JString (trim s))) = true.
Proof.
  intros H. destruct (forallb is_trim_space s) eqn:E.
  - rewrite JSON_parse_spaces in H by exact E. discriminate.
  - apply trim_not_empty in E. simpl. now destruct (trim s).
Qed.

Lemma OptGet_total (v : JSValue) (k : jsstring) : exists x, OptGet v k = Some x.
Proof. destruct v as [|[]]; simpl; eauto. Qed.

(** A sentinel frame makes the loop body return; a server-sent-event
    sentinel yields nothing of its own. *)
Lemma end_sentinel_returns (h : SimpleApiHandler) (line : jsstring) :
  end_sentinel h line ->
  exists own, line_body_of h line = Return own
              /\ (is_Ollama h = false -> own = []).
Proof.
  destruct h; simpl; try contradiction;
    try (intros ->; exists []; split; reflexivity).
  intros (props & Hp & Hd). unfold ollama_line.
  rewrite (JSON_parse_trim _ _ Hp), Hp. simpl Get.
  destruct (OptGet_total (own_property props (js "message")) (js "content"))
    as [content ->].
  rewrite Hd. simpl. eexists. split; [reflexivity | discriminate].
Qed.

(** C3. Let the bytes read so far decode to a text whose complete lines are
    [pre], then a sentinel frame [s], then [post], and let [tail] be the
    reads that would follow.  The generator returns at [s]: its chunks are
    those of the lines up to and with [s], whatever [post] holds and whatever
    [tail] would deliver or throw.  The sentinel line [[DONE]] yields nothing
    itself; an Ollama frame with [done] true yields its own message content,
    if any, before the generator returns. *)
Theorem C3_sentinel_terminates :
  forall (h : SimpleApiHandler) (sp um : jsstring) (r : Response)
         (bs : list (list byte)) (tail : list ReadResult)
         (pre post : list jsstring) (s : jsstring),
    ok r = true ->
    talks_to_network h = true ->
    complete_lines (decoded (List.concat bs)) = pre ++ s :: post ->
    end_sentinel h s ->
    createMessage h sp um (answering (with_body r (map ReadValue bs ++ tail)))
    = chunks (for_lines (line_body_of h) (pre ++ [s]))
    /\ returns (for_lines (line_body_of h) (pre ++ [s])) = true
    /\ exists own, line_body_of h s = Return own
                   /\ (is_Ollama h = false -> own = []).
Proof.
  intros h sp um r bs tail pre post s Hok Hn Hlines Hs.
  destruct (end_sentinel_returns h s Hs) as (own & Hown & Hsse).
  destruct (for_lines_until (line_body_of h) pre post s own Hown) as [R E].
  split; [|split; [exact R | eauto]].
  destruct (createMessage_network h sp um
              (answering (with_body r (map ReadValue bs ++ tail))) Hn) as (rq & _ & ->).
  unfold answering, try_catch, try_block, with_body, ok in *. simpl.
  rewrite Hok. simpl.
  rewrite read_loop_values by reflexivity.
  rewrite decoded_eq. simpl app. rewrite Hlines, E.
  destruct (for_lines (line_body_of h) (pre ++ [s])); [discriminate | reflexivity].
Qed.

Lemma C3_sentinel_terminates_witness :
  let h := OllamaSimpleHandler (js "http://localhost:11434") (js "llama3.2") in
  let first := jsq "{'message':{'content':'Hel'}}" in
  let last := jsq "{'message':{'content':'lo'},'done':true}" in
  let extra := jsq "{'message':{'content':'never'}}" in
  let bs := [bytes_of (first ++ nl); bytes_of (last ++ nl ++ extra ++ nl ++ js "{")] in
  let tail := [ReadThrow (new_Error (js "socket hang up"))] in
  createMessage h [] [] (answering (with_body OK_response (map ReadValue bs ++ tail)))
  = [Text (JString (js "Hel")); Text (JString (js "lo"))].
Proof.
  intros h first last extra bs tail.
  refine (proj1 (C3_sentinel_terminates h [] [] OK_response bs tail
                   [first] [extra] last eq_refl eq_refl eq_refl _)).
  simpl. eexists. split; reflexivity.
Defined.

(** ** C4: frames that are skipped *)

Lemma path_value_undefined (path : list jsstring) : path_value undefined path = undefined.
Proof. now destruct path. Qed.

Lemma OptGet_path (x : JSValue) (k : jsstring) : OptGet x k = Some (path_value x [k]).
Proof. destruct x as [|[]]; reflexivity. Qed.

Lemma path_value_step (v : JSValue) (k : jsstring) (path : list jsstring) :
  path_value v (k :: path) = path_value (path_value v [k]) path.
Proof.
  simpl. destruct (Get v k); [reflexivity|]. now rewrite path_value_undefined.
Qed.

Lemma Get_path (v x : JSValue) (k : jsstring) : Get v k = Some x -> path_value v [k] = x.
Proof. simpl. now intros ->. Qed.

(** What the test of the Anthropic handler yields, by the value at the delta
    path. *)
Lemma anthropic_delta_cases (parsed : json) :
  anthropic_delta parsed = None
  \/ anthropic_delta parsed = Some []
  \/ exists text,
       path_value (Json parsed) [js "delta"; js "text"] = Json text
       /\ ToBoolean (Json text) = true
       /\ strict_eq_string (path_value (Json parsed) [js "type"])
                           (js "content_block_delta") = true
       /\ anthropic_delta parsed = Some [Text text].
Proof.
  unfold anthropic_delta.
  destruct (Get (Json parsed) (js "type")) as [t|] eqn:Et; [|now left].
  destruct (strict_eq_string t (js "content_block_delta")) eqn:Es; [|now right; left].
  destruct (Get (Json parsed) (js "delta")) as [delta|] eqn:Ed; [|now left].
  rewrite OptGet_path.
  destruct (path_value delta [js "text"]) as [|text] eqn:Ep; [now right; left|].
  destruct (ToBoolean (Json text)) eqn:Eb; [|now right; left].
  right; right. exists text.
  rewrite path_value_step, (Get_path _ _ _ Ed), (Get_path _ _ _ Et). auto.
Qed.

Lemma openai_delta_cases (parsed : json) :
  openai_delta parsed = None
  \/ openai_delta parsed = Some []
  \/ exists content,
       path_value (Json parsed) [js "choices"; js "0"; js "delta"; js "content"]
       = Json content
       /\ ToBoolean (Json content) = true
       /\ openai_delta parsed = Some [Text content].
Proof.
  unfold openai_delta.
  destruct (Get (Json parsed) (js "choices")) as [choices|] eqn:Ec; [|now left].
  rewrite OptGet_path; cbv beta iota.
  rewrite OptGet_path; cbv beta iota.
  rewrite OptGet_path; cbv beta iota.
  rewrite (path_value_step (Json parsed) (js "choices")), (Get_path _ _ _ Ec).
  rewrite (path_value_step choices (js "0") [js "delta"; js "content"]).
  rewrite (path_value_step (path_value choices [js "0"]) (js "delta") [js "content"]).
  destruct (path_value (path_value (path_value choices [js "0"]) [js "delta"])
                       [js "content"]) as [|content] eqn:Ep; [now right; left|].
  destruct (ToBoolean (Json content)) eqn:Eb; [|now right; left].
  right; right. exists content. auto.
Qed.

(** What an Ollama frame that parses does. *)
Lemma ollama_line_parsed (line : jsstring) (v : json) :
  JSON_parse line = Some v ->
  chunks (ollama_line line) =
    match path_value (Json v) [js "message"; js "content"] with
    | Json content => if ToBoolean (Json content) then [Text content] else []
    | undefined => []
    end
  /\ returns (ollama_line line) = ToBoolean (path_value (Json v) [js "done"]).
Proof.
  intros Hp. unfold ollama_line. rewrite (JSON_parse_trim _ _ Hp), Hp.
  rewrite (path_value_step (Json v) (js "message") [js "content"]).
  destruct (Get (Json v) (js "message")) as [message|] eqn:Em.
  - rewrite (Get_path _ _ _ Em), OptGet_path. cbv beta iota zeta.
    destruct (Get (Json v) (js "done")) as [done|] eqn:Ed.
    + rewrite (Get_path _ _ _ Ed).
      destruct (path_value message [js "content"]);
        destruct (ToBoolean done); split; reflexivity.
    + destruct v; discriminate.
  - destruct v; try discriminate. split; reflexivity.
Qed.

Lemma ollama_line_unparsed (line : jsstring) :
  JSON_parse line = None -> ollama_line line = Next [].
Proof.
  intros Hp. unfold ollama_line. rewrite Hp. now destruct (ToBoolean _).
Qed.

(** What a server-sent-event frame other than the sentinel does. *)
Lemma sse_line_frame (delta : json -> option (list Chunk)) (line : jsstring) :
  startsWith line (js "data: ") = true ->
  slice line 6 <> js "[DONE]" ->
  sse_line delta line =
  Next match JSON_parse (slice line 6) with
       | Some parsed => match delta parsed with
                        | Some out => out
                        | None => []
                        end
       | None => []
       end.
Proof.
  intros Hs Hd. unfold sse_line. rewrite Hs, (str_eqb_neq _ _ Hd).
  destruct (JSON_parse (slice line 6)) as [parsed|]; [|reflexivity].
  now destruct (delta parsed).
Qed.

Lemma sse_line_sentinel (delta : json -> option (list Chunk)) (line : jsstring) :
  startsWith line (js "data: ") = true ->
  slice line 6 = js "[DONE]" ->
  sse_line delta line = Return [].
Proof. intros Hs Hd. unfold sse_line. now rewrite Hs, Hd. Qed.

Lemma DONE_is_no_JSON : JSON_parse (js "[DONE]") = None.
Proof. reflexivity. Qed.

(** A frame with nothing at the delta path yields nothing. *)
Lemma lacks_delta_no_chunk (h : SimpleApiHandler) (line : jsstring) :
  lacks_delta h line -> chunks (line_body_of h line) = [].
Proof.
  intros (data & v & Hf & Hp & Hu).
  assert (Hsse : forall delta,
             (if startsWith line (js "data: ") then Some (slice line 6) else None)
             = Some data ->
             (delta v = None \/ delta v = Some [] \/
              exists t, path_value (Json v) (delta_path h) = Json t /\ True) ->
             chunks (sse_line delta line) = []).
  { intros delta Hfr Hd.
    destruct (startsWith line (js "data: ")) eqn:Hs; [|discriminate].
    assert (data = slice line 6) as -> by congruence.
    destruct (list_eq_dec Z.eq_dec (slice line 6) (js "[DONE]")) as [E|E].
    - now rewrite sse_line_sentinel.
    - rewrite sse_line_frame, Hp by assumption.
      destruct Hd as [-> | [-> | (t & Ht & _)]]; try reflexivity.
      congruence. }
  destruct h; cbn [frame_of delta_path line_body_of] in *.
  - apply Hsse; [exact Hf|].
    destruct (anthropic_delta_cases v) as [H|[H|(t & Ht & _)]]; eauto.
  - apply Hsse; [exact Hf|].
    destruct (openai_delta_cases v) as [H|[H|(t & Ht & _)]]; eauto.
  - apply Hsse; [exact Hf|].
    destruct (openai_delta_cases v) as [H|[H|(t & Ht & _)]]; eauto.
  - assert (data = line) as -> by congruence.
    destruct (ollama_line_parsed line v Hp) as [-> _]. now rewrite Hu.
  - discriminate.
Qed.

(** A frame that does not parse is passed over. *)
Lemma malformed_skipped (h : SimpleApiHandler) (line : jsstring) :
  malformed h line -> line_body_of h line = Next [].
Proof.
  intros (data & Hf & Hp & Hd).
  destruct h; cbn [frame_of line_body_of is_Ollama] in *; try discriminate;
    try (destruct (startsWith line (js "data: ")) eqn:Hs; [|discriminate];
         assert (data = slice line 6) as -> by congruence;
         rewrite sse_line_frame, Hp by auto; reflexivity).
  assert (data = line) as -> by congruence. now apply ollama_line_unparsed.
Qed.

(** C4. A frame that fails to parse as JSON, or parses with nothing at the
    delta path, yields no chunk.  A frame that fails to parse (the sentinel
    line [[DONE]], which is no JSON text either, apart) is passed over: with
    such a frame [m] among the complete lines of a stream, the handler yields
    the chunks it yields for the stream without it, in the same order, all of
    them Text chunks. *)
Theorem C4_bad_frames_skipped :
  forall (h : SimpleApiHandler) (sp um : jsstring) (r : Response)
         (bs bs' : list (list byte)) (pre post : list jsstring) (m : jsstring),
    ok r = true ->
    complete_lines (decoded (List.concat bs)) = pre ++ m :: post ->
    complete_lines (decoded (List.concat bs')) = pre ++ post ->
    (malformed h m \/ lacks_delta h m -> chunks (line_body_of h m) = [])
    /\ (malformed h m ->
        line_body_of h m = Next []
        /\ createMessage h sp um (answering (with_body r (map ReadValue bs)))
           = createMessage h sp um (answering (with_body r (map ReadValue bs')))
        /\ forallb is_Text
             (createMessage h sp um (answering (with_body r (map ReadValue bs))))
           = true).
Proof.
  intros h sp um r bs bs' pre post m Hok Hl Hl'. split.
  - intros [Hm|Hm].
    + now rewrite (malformed_skipped h m Hm).
    + now apply lacks_delta_no_chunk.
  - intros Hm. pose proof (malformed_skipped h m Hm) as Hs.
    split; [exact Hs|].
    assert (Hn : talks_to_network h = true).
    { destruct Hm as (data & Hf & _). destruct h; try reflexivity; discriminate. }
    rewrite !createMessage_values by assumption.
    rewrite Hl, Hl', (for_lines_skip _ _ _ _ Hs).
    split; [reflexivity|].
    apply for_lines_text, line_body_text.
Qed.

Lemma C4_bad_frames_skipped_witness :
  let h := AnthropicSimpleHandler (js "key") (js "model") in
  let hi := jsq "data: {'type':'content_block_delta','delta':{'text':'Hi'}}" in
  let bad := jsq "data: {'type':'content_block_delta','delta':{'te" in
  let bang := jsq "data: {'type':'content_block_delta','delta':{'text':'!'}}" in
  let bs := [bytes_of (hi ++ nl ++ bad ++ nl ++ bang ++ nl)] in
  let bs' := [bytes_of (hi ++ nl ++ bang ++ nl)] in
  line_body_of h bad = Next []
  /\ createMessage h [] [] (answering (with_body OK_response (map ReadValue bs)))
     = createMessage h [] [] (answering (with_body OK_response (map ReadValue bs')))
  /\ forallb is_Text
       (createMessage h [] [] (answering (with_body OK_response (map ReadValue bs))))
     = true.
Proof.
  intros h hi bad bang bs bs'.
  refine (proj2 (C4_bad_frames_skipped h [] [] OK_response bs bs' [hi] [bang] bad
                   eq_refl eq_refl eq_refl) _).
  exists (slice bad 6). split; [reflexivity|]. split; [reflexivity|].
  intros _ H. vm_compute in H. discriminate H.
Defined.

(** ** C6: a frame with a text delta *)

Lemma path_value_Get (v : JSValue) (k : jsstring) (path : list jsstring) (j : json) :
  path_value v (k :: path) = Json j ->
  exists x, Get v k = Some x /\ path_value x path = Json j.
Proof.
  simpl. destruct (Get v k) as [x|]; [eauto | discriminate].
Qed.

Lemma anthropic_delta_carries (v text : json) :
  path_value (Json v) [js "type"] = Json (JString (js "content_block_delta")) ->
  path_value (Json v) [js "delta"; js "text"] = Json text ->
  anthropic_delta v = Some (if ToBoolean (Json text) then [Text text] else []).
Proof.
  intros Ht Hd. unfold anthropic_delta.
  apply path_value_Get in Ht as (t & -> & Ht). simpl in Ht. subst t.
  unfold strict_eq_string. rewrite str_eqb_refl.
  apply path_value_Get in Hd as (delta & -> & Hd).
  rewrite OptGet_path, Hd. now destruct (ToBoolean (Json text)).
Qed.

Lemma openai_delta_carries (v content : json) :
  path_value (Json v) [js "choices"; js "0"; js "delta"; js "content"] = Json content ->
  openai_delta v = Some (if ToBoolean (Json content) then [Text content] else []).
Proof.
  intros Hc. unfold openai_delta.
  apply path_value_Get in Hc as (choices & -> & Hc).
  rewrite OptGet_path; cbv beta iota.
  rewrite OptGet_path; cbv beta iota.
  rewrite OptGet_path; cbv beta iota.
  rewrite (path_value_step choices (js "0") [js "delta"; js "content"]) in Hc.
  rewrite (path_value_step (path_value choices [js "0"]) (js "delta") [js "content"]) in Hc.
  rewrite Hc. now destruct (ToBoolean (Json content)).
Qed.

(** The chunks of a frame with a string at the delta path: one Text chunk
    when the string is not empty, none when it is. *)
Lemma carries_delta_chunks (h : SimpleApiHandler) (line d : jsstring) :
  carries_delta h line d ->
  chunks (line_body_of h line) =
  if ToBoolean (Json (JString d)) then [Text (JString d)] else [].
Proof.
  intros (data & v & Hf & Hp & He & Hd).
  assert (Hsse : forall delta,
             (if startsWith line (js "data: ") then Some (slice line 6) else None)
             = Some data ->
             delta v = Some (if ToBoolean (Json (JString d))
                             then [Text (JString d)] else []) ->
             chunks (sse_line delta line) =
             if ToBoolean (Json (JString d)) then [Text (JString d)] else []).
  { intros delta Hfr Hdelta.
    destruct (startsWith line (js "data: ")) eqn:Hs; [|discriminate].
    assert (data = slice line 6) as -> by congruence.
    rewrite sse_line_frame, Hp, Hdelta; [reflexivity | exact Hs |].
    intros E. rewrite E, DONE_is_no_JSON in Hp. discriminate. }
  destruct h; cbn [frame_of delta_path delta_event line_body_of] in *.
  - apply Hsse; [exact Hf|]. now apply anthropic_delta_carries.
  - apply Hsse; [exact Hf|]. now apply openai_delta_carries.
  - apply Hsse; [exact Hf|]. now apply openai_delta_carries.
  - assert (data = line) as -> by congruence.
    destruct (ollama_line_parsed line v Hp) as [-> _]. now rewrite Hd.
  - discriminate.
Qed.

(** The claim as worded fails on a frame whose delta is the empty string:
    the handler tests the delta for truthiness and yields nothing. *)
Lemma C6_empty_delta_counterexample :
  let h := AnthropicSimpleHandler (js "key") (js "model") in
  let line := jsq "data: {'type':'content_block_delta','delta':{'text':''}}" in
  carries_delta h line []
  /\ chunks (line_body_of h line) = []
  /\ createMessage h [] [] (answering (with_body OK_response
                                         [ReadValue (bytes_of (line ++ nl))])) = []
  /\ ~ every_string_delta_yields.
Proof.
  intros h line.
  assert (Hc : carries_delta h line []).
  { exists (slice line 6). eexists. repeat split; reflexivity. }
  repeat split; try reflexivity; [exact Hc|].
  intros H. specialize (H h line [] Hc). vm_compute in H. discriminate H.
Qed.

(** C6, amended. A frame that carries a string that is not empty at the delta
    path yields exactly one Text chunk, whose payload is that string
    unchanged.  In a stream the chunk comes after the chunks of the lines
    before the frame and before those of the lines after it. *)
Theorem C6_delta_yields_text :
  forall (h : SimpleApiHandler) (sp um : jsstring) (r : Response)
         (bs : list (list byte)) (pre post : list jsstring) (line d : jsstring)
         (before : list Chunk),
    ok r = true ->
    complete_lines (decoded (List.concat bs)) = pre ++ line :: post ->
    for_lines (line_body_of h) pre = Next before ->
    carries_delta h line d ->
    d <> [] ->
    chunks (line_body_of h line) = [Text (JString d)]
    /\ createMessage h sp um (answering (with_body r (map ReadValue bs)))
       = before ++ Text (JString d)
                   :: (if returns (line_body_of h line) then []
                       else chunks (for_lines (line_body_of h) post)).
Proof.
  intros h sp um r bs pre post line d before Hok Hl Hpre Hc Hd.
  assert (E : chunks (line_body_of h line) = [Text (JString d)]).
  { rewrite (carries_delta_chunks h line d Hc). destruct d; [contradiction|reflexivity]. }
  split; [exact E|].
  assert (Hn : talks_to_network h = true).
  { destruct Hc as (data & v & Hf & _). destruct h; try reflexivity; discriminate. }
  rewrite createMessage_values, Hl, for_lines_app, Hpre by assumption.
  simpl for_lines.
  destruct (line_body_of h line) as [o|o]; simpl in E; subst o; simpl.
  - now destruct (for_lines (line_body_of h) post).
  - reflexivity.
Qed.

Lemma C6_delta_yields_text_witness :
  let h := OpenAISimpleHandler (js "key") (js "gpt-4o") in
  let one := jsq "data: {'choices':[{'delta':{'content':'Hello, '}}]}" in
  let two := jsq "data: {'choices':[{'delta':{'content':'  world '}}]}" in
  let three := jsq "data: {'choices':[{'delta':{'content':'!'}}]}" in
  let bs := [bytes_of (one ++ nl ++ nl ++ two ++ nl); bytes_of (nl ++ three ++ nl)] in
  createMessage h [] [] (answering (with_body OK_response (map ReadValue bs)))
  = [Text (JString (js "Hello, ")); Text (JString (js "  world "));
     Text (JString (js "!"))].
Proof.
  intros h one two three bs.
  refine (proj2 (C6_delta_yields_text h [] [] OK_response bs [one; []] [[]; three]
                   two (js "  world ") [Text (JString (js "Hello, "))]
                   eq_refl eq_refl eq_refl _ _)).
  - exists (slice two 6). eexists. repeat split; reflexivity.
  - discriminate.
Defined.

(** ** C9: an unknown provider gets the mock handler *)

(** C9. When the provider of a configuration is unset or none of the four
    known identifiers, [buildSimpleApiHandler] returns the mock handler, and
    its [createMessage] yields one Text chunk and nothing else; the text is
    the mock notice, which prints the provider. *)
Theorem C9_unknown_provider_mock :
  forall (config : ApiConfiguration) (sp um : jsstring) (fetch : Network),
    (forall p, apiProvider config = Some p -> ~ known_provider p) ->
    buildSimpleApiHandler config = MockSimpleHandler config
    /\ createMessage (buildSimpleApiHandler config) sp um fetch
       = [Text (JString (mock_text config um))]
    /\ mentions (mock_text config um) (printed_provider config).
Proof.
  intros config sp um fetch Hp.
  assert (E : buildSimpleApiHandler config = MockSimpleHandler config).
  { unfold buildSimpleApiHandler.
    destruct (apiProvider config) as [p|] eqn:Ep; [|reflexivity].
    specialize (Hp p eq_refl). unfold known_provider in Hp.
    rewrite !str_eqb_neq; [reflexivity | | | |]; intros ->; tauto. }
  rewrite E. split; [reflexivity|]. split; [reflexivity|].
  unfold mentions, mock_text, printed_provider. eexists. eexists. reflexivity.
Qed.

Lemma C9_unknown_provider_mock_witness :
  let config := {| apiProvider := Some (js "gemini"); apiKey := None;
                   apiModelId := None; openAiNativeApiKey := None;
                   ollamaBaseUrl := None |} in
  buildSimpleApiHandler config = MockSimpleHandler config
  /\ createMessage (buildSimpleApiHandler config) [] (js "hello") (fun _ => Rejects (new_Error []))
     = [Text (JString (mock_text config (js "hello")))]
  /\ mentions (mock_text config (js "hello")) (js "gemini").
Proof.
  intros config.
  apply (C9_unknown_provider_mock config [] (js "hello")).
  intros p Hp. injection Hp as <-.
  intros [H|[H|[H|H]]]; vm_compute in H; discriminate H.
Defined.

(** ** C8: files that cannot be read *)

Lemma unreadable_read_json (d : Disk) (f : StorageFile) :
  unreadable d f -> read_json d f = None.
Proof.
  unfold read_json. intros [->|(text & -> & Hp)]; [reflexivity | exact Hp].
Qed.

Lemma load_map_unreadable (d : Disk) (f : StorageFile) (current : Map) :
  unreadable d f -> load_map d f current = current.
Proof. intros H. unfold load_map. now rewrite (unreadable_read_json d f H). Qed.

(** C8. A state, secrets, history or provider-configuration file that is
    missing or holds no JSON text reads as the default: [loadState] leaves
    the map of that file as it was, which is the empty map in a context just
    constructed, [getTaskHistory] returns the empty array and
    [getApiConfiguration] returns [null].  All three are total functions: no
    error leaves them. *)
Theorem C8_unreadable_files_default :
  forall (d : Disk) (c : CliContext) (workspaceFolder : jsstring),
    (unreadable d global_state_json ->
     _globalState (loadState c d) = _globalState c
     /\ _globalState (loadState (new_CliContext workspaceFolder) d) = [])
    /\ (unreadable d workspace_state_json ->
        _workspaceState (loadState c d) = _workspaceState c
        /\ _workspaceState (loadState (new_CliContext workspaceFolder) d) = [])
    /\ (unreadable d secrets_json ->
        _secretStorage (loadState c d) = _secretStorage c
        /\ _secretStorage (loadState (new_CliContext workspaceFolder) d) = [])
    /\ (unreadable d task_history_json -> getTaskHistory d = JArray [])
    /\ (unreadable d api_config_json -> getApiConfiguration d = JNull).
Proof.
  intros d c ws.
  split; [|split; [|split; [|split]]]; intros H.
  - simpl. now rewrite !load_map_unreadable.
  - simpl. now rewrite !load_map_unreadable.
  - simpl. now rewrite !load_map_unreadable.
  - unfold getTaskHistory. now rewrite (unreadable_read_json _ _ H).
  - unfold getApiConfiguration. now rewrite (unreadable_read_json _ _ H).
Qed.

Lemma C8_unreadable_files_default_witness :
  let cut := FileText (jsq "{'lastModel': 'claude', 'recent': [1, 2") in
  let d := {| files := fun f => match f with
                                | global_state_json => Some cut
                                | secrets_json => Some (FileText [])
                                | task_history_json => Some (FileText (jsq "[{'id': '17"))
                                | _ => None
                                end;
              read_only := fun _ => false |} in
  let c := loadState (new_CliContext (js "/work")) d in
  _globalState c = [] /\ _workspaceState c = [] /\ _secretStorage c = []
  /\ getTaskHistory d = JArray []
  /\ getApiConfiguration d = JNull.
Proof.
  intros cut d.
  destruct (C8_unreadable_files_default d (new_CliContext (js "/work")) (js "/work"))
    as (Hg & Hw & Hs & Hh & Ha).
  assert (Ug : unreadable d global_state_json)
    by (right; eexists; split; reflexivity).
  assert (Uw : unreadable d workspace_state_json) by (left; reflexivity).
  assert (Us : unreadable d secrets_json)
    by (right; eexists; split; reflexivity).
  assert (Uh : unreadable d task_history_json)
    by (right; eexists; split; reflexivity).
  assert (Ua : unreadable d api_config_json) by (left; reflexivity).
  exact (conj (proj2 (Hg Ug)) (conj (proj2 (Hw Uw)) (conj (proj2 (Hs Us))
           (conj (Hh Uh) (Ha Ua))))).
Defined.

(** ** C10: every mutation rewrites the three state files *)

Lemma writeFile_files (d d' : Disk) (f g : StorageFile) (data : FileContent) :
  writeFile d f data = Some d' ->
  files d' g = (if StorageFile_eq_dec f g then Some data else files d g)
  /\ read_only d' = read_only d.
Proof.
  unfold writeFile. destruct (read_only d f); [discriminate|].
  intros H. injection H as <-. split; reflexivity.
Qed.

Lemma saveState_holds_images (c : CliContext) (d : Disk) :
  state_writable d ->
  holds_images c (fst (saveState c d))
  /\ snd (saveState c d) = false
  /\ files (fst (saveState c d)) api_config_json = files d api_config_json
  /\ files (fst (saveState c d)) task_history_json = files d task_history_json.
Proof.
  intros (Hg & Hw & Hs). unfold saveState, holds_images, writeFile.
  rewrite Hg. simpl. rewrite Hw. simpl. rewrite Hs. simpl.
  repeat split.
Qed.

(** C10. While the three state files can be written, each of
    [globalState.update], [workspaceState.update], [secrets.store] and
    [secrets.delete] leaves all three files holding the images of the three
    maps as they are in memory after the call, whatever the files held
    before: the files of the two namespaces the call did not touch are
    written again from their maps, which the call left unchanged. *)
Theorem C10_mutation_rewrites_all :
  forall (c : CliContext) (d : Disk) (key : jsstring) (value : json) (secret : jsstring),
    state_writable d ->
    (let '(c', d') := globalState_update c d key value in
     holds_images c' d'
     /\ _workspaceState c' = _workspaceState c
     /\ _secretStorage c' = _secretStorage c)
    /\ (let '(c', d') := workspaceState_update c d key value in
        holds_images c' d'
        /\ _globalState c' = _globalState c
        /\ _secretStorage c' = _secretStorage c)
    /\ (let '(c', d') := secrets_store c d key secret in
        holds_images c' d'
        /\ _globalState c' = _globalState c
        /\ _workspaceState c' = _workspaceState c)
    /\ (let '(c', d') := secrets_delete c d key in
        holds_images c' d'
        /\ _globalState c' = _globalState c
        /\ _workspaceState c' = _workspaceState c).
Proof.
  intros c d key value secret Hw.
  unfold globalState_update, workspaceState_update, secrets_store, secrets_delete.
  repeat split; try apply (saveState_holds_images _ d Hw).
Qed.

(** The workspace file held other keys; after an update of the global
    state by a context that had not loaded them, it holds the empty object. *)
Lemma C10_mutation_rewrites_all_witness :
  let d := {| files := fun f => match f with
                                | workspace_state_json =>
                                    Some (FileText (jsq "{'theme': 'dark'}"))
                                | _ => None
                                end;
              read_only := fun _ => false |} in
  let c := new_CliContext (js "/work") in
  let '(c', d') := globalState_update c d (js "seen") (JBool true) in
  files d' global_state_json = Some (Serialized (JObject [(js "seen", JBool true)]))
  /\ files d' workspace_state_json = Some (Serialized (JObject []))
  /\ files d' secrets_json = Some (Serialized (JObject [])).
Proof.
  intros d c.
  destruct (C10_mutation_rewrites_all c d (js "seen") (JBool true) []
              (conj eq_refl (conj eq_refl eq_refl))) as [H _].
  destruct (globalState_update c d (js "seen") (JBool true)) as [c' d'] eqn:E.
  injection E as <- <-. destruct H as [H _]. exact H.
Defined.

(** ** C5: the history keeps the hundred newest records *)

Lemma firstn_app_firstn {A : Type} (n : nat) (a b : list A) :
  firstn n (a ++ firstn n b) = firstn n (a ++ b).
Proof.
  rewrite !firstn_app, firstn_firstn. f_equal. f_equal. lia.
Qed.

(** One call, when the history file can be written and holds an array (or is
    missing or unreadable, which reads as the empty array). *)
Lemma saveToHistory_step (now_id now_ts : N) (task response : jsstring) (d : Disk)
    (history : list json) :
  read_only d task_history_json = false ->
  getTaskHistory d = JArray history ->
  let d' := saveToHistory now_id now_ts task response d in
  files d' task_history_json
  = Some (Serialized (JArray (firstn 100 (historyItem now_id now_ts task :: history))))
  /\ read_only d' task_history_json = false.
Proof.
  intros Hw Hh. unfold saveToHistory. rewrite Hh.
  unfold saveTaskHistory, writeFile. rewrite Hw. simpl.
  destruct (StorageFile_eq_dec task_history_json task_history_json);
    [auto | contradiction].
Qed.

Lemma getTaskHistory_Serialized (d : Disk) (v : json) :
  files d task_history_json = Some (Serialized v) -> getTaskHistory d = v.
Proof. intros H. unfold getTaskHistory, read_json. now rewrite H. Qed.

Lemma save_all_history (calls : list Call) :
  forall (d : Disk) (k : Call) (history : list json),
    read_only d task_history_json = false ->
    getTaskHistory d = JArray history ->
    files (save_all (k :: calls) d) task_history_json
    = Some (Serialized (JArray (firstn 100 (rev (map record_of (k :: calls)) ++ history)))).
Proof.
  induction calls as [|k' calls IH]; intros d k history Hw Hh.
  - simpl. now apply saveToHistory_step.
  - change (save_all (k :: k' :: calls) d)
      with (save_all (k' :: calls)
              (saveToHistory (call_now_id k) (call_now_ts k) (call_task k)
                             (call_response k) d)).
    destruct (saveToHistory_step (call_now_id k) (call_now_ts k) (call_task k)
                (call_response k) d history Hw Hh) as [Hf Hw'].
    rewrite (IH _ k' _ Hw' (getTaskHistory_Serialized _ _ Hf)).
    rewrite firstn_app_firstn. do 3 f_equal.
    change (map record_of (k :: k' :: calls))
      with (record_of k :: map record_of (k' :: calls)).
    simpl rev at 2. now rewrite <- app_assoc.
Qed.

(** C5. Start from any history: an array in the file, or a missing or
    unreadable file.  After 101 calls of [saveToHistory], with the file
    writable, the file holds exactly 100 records: those of the last 100
    calls, the newest first.  The record of the first call and the whole
    starting history are gone.  Each single call puts its record in front and
    keeps the first 100. *)
Theorem C5_history_capped_at_100 :
  forall (d : Disk) (history : list json) (first : Call) (calls : list Call),
    read_only d task_history_json = false ->
    getTaskHistory d = JArray history ->
    List.length calls = 100%nat ->
    files (save_all (first :: calls) d) task_history_json
    = Some (Serialized (JArray (rev (map record_of calls))))
    /\ List.length (rev (map record_of calls)) = 100%nat
    /\ files (save_all [first] d) task_history_json
       = Some (Serialized (JArray (firstn 100 (record_of first :: history)))).
Proof.
  intros d history first calls Hw Hh Hlen.
  assert (L : List.length (rev (map record_of calls)) = 100%nat)
    by now rewrite length_rev, length_map.
  split; [|split; [exact L|]].
  - rewrite (save_all_history calls d first history Hw Hh).
    change (map record_of (first :: calls)) with (record_of first :: map record_of calls).
    simpl rev. rewrite <- app_assoc, firstn_app, L, Nat.sub_diag. simpl firstn at 2.
    rewrite app_nil_r. rewrite <- L at 1. now rewrite firstn_all.
  - now apply (saveToHistory_step _ _ _ _ d history).
Qed.

Lemma C5_history_capped_at_100_witness :
  let d := {| files := fun f => match f with
                                | task_history_json =>
                                    Some (FileText (jsq "[{'id':'1','task':'old'}]"))
                                | _ => None
                                end;
              read_only := fun _ => false |} in
  let call (n : nat) := {| call_now_id := N.of_nat (1000 + n);
                           call_now_ts := N.of_nat (1000 + n);
                           call_task := js "task";
                           call_response := js "answer" |} in
  let calls := map call (seq 1 100) in
  files (save_all (call 0%nat :: calls) d) task_history_json
  = Some (Serialized (JArray (rev (map record_of calls))))
  /\ List.length (rev (map record_of calls)) = 100%nat.
Proof.
  intros d call calls.
  destruct (C5_history_capped_at_100 d
              [JObject [(js "id", JString (js "1")); (js "task", JString (js "old"))]]
              (call 0%nat) calls eq_refl eq_refl eq_refl) as (H1 & H2 & _).
  exact (conj H1 H2).
Defined.

(** ** C7: what a turn records *)

(** The record has the nine fields of the [historyItem] literal, and the
    response is none of them. *)
Lemma historyItem_fields (now_id now_ts : N) (task : jsstring) :
  exists id ts,
    historyItem now_id now_ts task =
    JObject [(js "id", JString id); (js "ts", ts); (js "task", JString task);
             (js "tokensIn", zero); (js "tokensOut", zero);
             (js "cacheWrites", zero); (js "cacheReads", zero);
             (js "totalCost", zero); (js "isFavorited", JBool false)].
Proof. eexists. eexists. reflexivity. Qed.

(** C7, as the code has it. The disk after a completed turn is the one
    [saveToHistory] makes from the task text and the clock alone: whatever
    response was gathered, the same record is written.  The record holds the
    identifier and the timestamp read from the clock, the task text, five
    counters that are zero and the favourite flag [false]; it has no field
    for the response. *)
Theorem C7_record_omits_response :
  forall (c : CliController) (fetch : Network) (now_id now_ts : N)
         (description : jsstring) (d : Disk) (stdout response : jsstring) (d' : Disk),
    executeTask c fetch now_id now_ts description d = Completed stdout response d' ->
    (forall other, d' = saveToHistory now_id now_ts description other d)
    /\ (read_only d task_history_json = false ->
        forall history, getTaskHistory d = JArray history ->
        files d' task_history_json
        = Some (Serialized (JArray (firstn 100
                  (historyItem now_id now_ts description :: history))))).
Proof.
  intros c fetch now_id now_ts description d stdout response d' H.
  unfold executeTask in H.
  destruct (consume _ [] []) as [[out resp]|]; [|discriminate].
  injection H as <- <- <-. split.
  - intros other. reflexivity.
  - intros Hw history Hh.
    now apply (saveToHistory_step now_id now_ts description resp d history).
Qed.

Lemma C7_record_omits_response_witness :
  let config := {| apiProvider := Some (js "ollama"); apiKey := None;
                   apiModelId := None; openAiNativeApiKey := None;
                   ollamaBaseUrl := None |} in
  let c := new_CliController (new_CliContext (js "/work")) config in
  let reply := jsq "{'message':{'content':'4'},'done':true}" ++ nl in
  let fetch := answering (with_body OK_response [ReadValue (bytes_of reply)]) in
  let d := {| files := fun _ => None; read_only := fun _ => false |} in
  exists d',
    executeTask c fetch 1700000000000 1700000000001 (js "2+2?") d
    = Completed (js "4") (js "4") d'
    /\ files d' task_history_json
       = Some (Serialized (JArray [
           JObject [(js "id", JString (js "1700000000000"));
                    (js "ts", JNumber false 1700000000001 0);
                    (js "task", JString (js "2+2?"));
                    (js "tokensIn", zero); (js "tokensOut", zero);
                    (js "cacheWrites", zero); (js "cacheReads", zero);
                    (js "totalCost", zero); (js "isFavorited", JBool false)]])).
Proof.
  intros config c reply fetch d.
  eexists. split; [reflexivity|].
  refine (proj2 (C7_record_omits_response c fetch 1700000000000 1700000000001
                   (js "2+2?") d (js "4") (js "4") _ eq_refl) eq_refl [] eq_refl).
Defined.

(** * Further properties of the code *)

(** ** The maps of the context *)

Lemma own_property_define_same (m : Map) (k : jsstring) (v : json) :
  own_property (define_property m k v) k = Json v.
Proof.
  induction m as [|[k' v'] m IH]; simpl.
  - now rewrite str_eqb_refl.
  - destruct (str_eqb k' k) eqn:E; simpl; now rewrite E.
Qed.

Lemma own_property_define_other (m : Map) (k k' : jsstring) (v : json) :
  k' <> k -> own_property (define_property m k v) k' = own_property m k'.
Proof.
  intros Hne. induction m as [|[k0 v0] m IH]; simpl.
  - now rewrite (str_eqb_neq k k') by congruence.
  - destruct (str_eqb k0 k) eqn:E; simpl.
    + apply str_eqb_eq in E. subst k0. now rewrite (str_eqb_neq k k') by congruence.
    + now rewrite IH.
Qed.

Lemma own_property_delete_same (m : Map) (k : jsstring) :
  own_property (Map_delete m k) k = undefined.
Proof.
  unfold Map_delete. induction m as [|[k' v'] m IH]; simpl; [reflexivity|].
  destruct (str_eqb k' k) eqn:E; simpl; [exact IH|]. now rewrite E.
Qed.

Lemma own_property_delete_other (m : Map) (k k' : jsstring) :
  k' <> k -> own_property (Map_delete m k) k' = own_property m k'.
Proof.
  intros Hne. unfold Map_delete. induction m as [|[k0 v0] m IH]; simpl; [reflexivity|].
  destruct (str_eqb k0 k) eqn:E; simpl.
  - apply str_eqb_eq in E. subst k0. now rewrite (str_eqb_neq k k') by congruence.
  - now rewrite IH.
Qed.
















Lemma new_CliContext_well_formed (workspaceFolder : jsstring) :
  well_formed (new_CliContext workspaceFolder).
Proof. repeat split; constructor. Qed.





(** X2. An update is seen by the next [get] of the same namespace, and by no
    [get] of another key, whether or not the state could be written to disk:
    the maps in memory stay valid when persisting fails. *)
Theorem update_then_get :
  forall (c : CliContext) (d : Disk) (key other : jsstring) (value : json)
         (secret : jsstring),
    other <> key ->
    (globalState_get (fst (globalState_update c d key value)) key = Json value
     /\ globalState_get (fst (globalState_update c d key value)) other
        = globalState_get c other)
    /\ (workspaceState_get (fst (workspaceState_update c d key value)) key = Json value
        /\ workspaceState_get (fst (workspaceState_update c d key value)) other
           = workspaceState_get c other)
    /\ (secrets_get (fst (secrets_store c d key secret)) key = Json (JString secret)
        /\ secrets_get (fst (secrets_store c d key secret)) other
           = secrets_get c other).
Proof.
  intros c d key other value secret Hne.
  unfold globalState_get, workspaceState_get, secrets_get, Map_get, Map_set. simpl.
  repeat split;
    first [apply own_property_define_same | now apply own_property_define_other].
Qed.

Lemma update_then_get_witness :
  let d := {| files := fun _ => None; read_only := fun _ => true |} in
  let c := fst (globalState_update (new_CliContext (js "/work")) d (js "mode") (JString (js "plan"))) in
  globalState_get (fst (globalState_update c d (js "count") (JNumber false 3 0))) (js "count")
  = Json (JNumber false 3 0)
  /\ globalState_get (fst (globalState_update c d (js "count") (JNumber false 3 0))) (js "mode")
     = Json (JString (js "plan")).
Proof.
  intros d c.
  refine (proj1 (update_then_get c d (js "count") (js "mode") (JNumber false 3 0) [] _)).
  discriminate.
Defined.

(** X3. After [secrets.delete(key)] the key reads as undefined and every
    other secret reads as before; deleting a key that is not there changes
    no answer. *)
Theorem delete_then_get :
  forall (c : CliContext) (d : Disk) (key other : jsstring),
    other <> key ->
    secrets_get (fst (secrets_delete c d key)) key = undefined
    /\ secrets_get (fst (secrets_delete c d key)) other = secrets_get c other
    /\ _globalState (fst (secrets_delete c d key)) = _globalState c
    /\ _workspaceState (fst (secrets_delete c d key)) = _workspaceState c.
Proof.
  intros c d key other Hne.
  unfold secrets_get, Map_get. simpl.
  repeat split; [apply own_property_delete_same | now apply own_property_delete_other].
Qed.

Lemma delete_then_get_witness :
  let d := {| files := fun _ => None; read_only := fun _ => false |} in
  let c := fst (secrets_store (new_CliContext (js "/work")) d (js "a") (js "1")) in
  let c := fst (secrets_store c d (js "b") (js "2")) in
  secrets_get (fst (secrets_delete c d (js "a"))) (js "a") = undefined
  /\ secrets_get (fst (secrets_delete c d (js "a"))) (js "b") = Json (JString (js "2")).
Proof.
  intros d c0 c.
  destruct (delete_then_get c d (js "a") (js "b")) as (H1 & H2 & _); [discriminate|].
  exact (conj H1 H2).
Defined.

(** ** What the writers leave alone *)

Lemma writeFile_other (d d' : Disk) (f g : StorageFile) (data : FileContent) :
  writeFile d f data = Some d' -> g <> f -> files d' g = files d g.
Proof.
  intros H Hne. destruct (writeFile_files d d' f g data H) as [-> _].
  destruct (StorageFile_eq_dec f g); [congruence | reflexivity].
Qed.

Lemma writeFile_same (d d' : Disk) (f : StorageFile) (data : FileContent) :
  writeFile d f data = Some d' -> files d' f = Some data.
Proof.
  intros H. destruct (writeFile_files d d' f f data H) as [-> _].
  destruct (StorageFile_eq_dec f f); [reflexivity | contradiction].
Qed.

Lemma writeFile_read_only (d d' : Disk) (f : StorageFile) (data : FileContent) :
  writeFile d f data = Some d' -> read_only d' = read_only d.
Proof. intros H. exact (proj2 (writeFile_files d d' f f data H)). Qed.

Lemma writeFile_fails (d : Disk) (f : StorageFile) (data : FileContent) :
  read_only d f = true -> writeFile d f data = None.
Proof. intros H. unfold writeFile. now rewrite H. Qed.


Lemma saveState_other_files (c : CliContext) (d : Disk) (g : StorageFile) :
  g = api_config_json \/ g = task_history_json ->
  files (fst (saveState c d)) g = files d g.
Proof.
  intros Hg. unfold saveState.
  destruct (writeFile d global_state_json _) as [d1|] eqn:E1; [|reflexivity].
  destruct (writeFile d1 workspace_state_json _) as [d2|] eqn:E2; simpl.
  - destruct (writeFile d2 secrets_json _) as [d3|] eqn:E3; simpl.
    + rewrite (writeFile_other _ _ _ g _ E3), (writeFile_other _ _ _ g _ E2),
        (writeFile_other _ _ _ g _ E1); [reflexivity| | |];
        destruct Hg as [->| ->]; discriminate.
    + rewrite (writeFile_other _ _ _ g _ E2), (writeFile_other _ _ _ g _ E1);
        [reflexivity| |]; destruct Hg as [->| ->]; discriminate.
  - rewrite (writeFile_other _ _ _ g _ E1); [reflexivity|].
    destruct Hg as [->| ->]; discriminate.
Qed.

(** X4. Each writer keeps to its own files.  The four mutations of the state
    and [dispose] never change the provider configuration or the history;
    [saveToHistory] changes no file but the history; [saveApiConfiguration]
    changes no file but the provider configuration.  This holds whether the
    writes succeed or fail. *)
Theorem writers_keep_to_their_files :
  forall (c : CliContext) (d : Disk) (key : jsstring) (value : json)
         (secret task response : jsstring) (now_id now_ts : N) (config : json)
         (f : StorageFile),
    (f = api_config_json \/ f = task_history_json ->
     files (snd (globalState_update c d key value)) f = files d f
     /\ files (snd (workspaceState_update c d key value)) f = files d f
     /\ files (snd (secrets_store c d key secret)) f = files d f
     /\ files (snd (secrets_delete c d key)) f = files d f
     /\ files (fst (dispose c d)) f = files d f)
    /\ (f <> task_history_json ->
        files (saveToHistory now_id now_ts task response d) f = files d f)
    /\ (f <> api_config_json ->
        forall d', saveApiConfiguration d config = Some d' -> files d' f = files d f).
Proof.
  intros c d key value secret task response now_id now_ts config f.
  split; [|split].
  - intros Hf. unfold globalState_update, workspaceState_update, secrets_store,
      secrets_delete, dispose. simpl.
    repeat split; now apply saveState_other_files.
  - intros Hf. unfold saveToHistory, saveTaskHistory.
    destruct (getTaskHistory d); try reflexivity.
    destruct (writeFile d task_history_json _) as [d'|] eqn:E; [|reflexivity].
    now apply (writeFile_other _ _ _ f _ E).
  - intros Hf d' E. now apply (writeFile_other _ _ _ f _ E).
Qed.

Lemma writers_keep_to_their_files_witness :
  let d := {| files := fun f => match f with
                                | api_config_json =>
                                    Some (FileText (jsq "{'apiProvider':'ollama'}"))
                                | _ => None
                                end;
              read_only := fun f => match f with
                                    | workspace_state_json => true
                                    | _ => false
                                    end |} in
  let c := new_CliContext (js "/work") in
  files (snd (globalState_update c d (js "k") JNull)) api_config_json
  = Some (FileText (jsq "{'apiProvider':'ollama'}"))
  /\ files (saveToHistory 1 2 (js "task") (js "answer") d) api_config_json
     = Some (FileText (jsq "{'apiProvider':'ollama'}")).
Proof.
  intros d c.
  destruct (writers_keep_to_their_files c d (js "k") JNull [] (js "task") (js "answer")
              1 2 JNull api_config_json) as (H1 & H2 & _).
  destruct (H1 (or_introl eq_refl)) as (Hg & _).
  split; [exact Hg | apply H2; discriminate].
Defined.

(** X5. [saveState] stops at the first write that fails, and prints its
    warning: with the global state file unwritable nothing is written; with
    the workspace state file unwritable the global state is written and the
    secrets are not; with only the secrets file unwritable the two state
    files are written. *)
Theorem saveState_stops_at_first_failure :
  forall (c : CliContext) (d : Disk),
    (read_only d global_state_json = true ->
     saveState c d = (d, true))
    /\ (read_only d global_state_json = false ->
        read_only d workspace_state_json = true ->
        files (fst (saveState c d)) global_state_json
        = Some (Serialized (Object_fromEntries (_globalState c)))
        /\ files (fst (saveState c d)) workspace_state_json = files d workspace_state_json
        /\ files (fst (saveState c d)) secrets_json = files d secrets_json
        /\ snd (saveState c d) = true)
    /\ (read_only d global_state_json = false ->
        read_only d workspace_state_json = false ->
        read_only d secrets_json = true ->
        files (fst (saveState c d)) global_state_json
        = Some (Serialized (Object_fromEntries (_globalState c)))
        /\ files (fst (saveState c d)) workspace_state_json
           = Some (Serialized (Object_fromEntries (_workspaceState c)))
        /\ files (fst (saveState c d)) secrets_json = files d secrets_json
        /\ snd (saveState c d) = true).
Proof.
  intros c d. unfold saveState, writeFile. split; [|split].
  - intros ->. reflexivity.
  - intros -> Hw. simpl. rewrite Hw. simpl. repeat split.
  - intros -> Hw Hs. simpl. rewrite Hw. simpl. rewrite Hs. simpl. repeat split.
Qed.

Lemma saveState_stops_at_first_failure_witness :
  let d := {| files := fun f => match f with
                                | secrets_json => Some (FileText (jsq "{'token':'old'}"))
                                | _ => None
                                end;
              read_only := fun f => match f with
                                    | workspace_state_json => true
                                    | _ => false
                                    end |} in
  let '(c, d') := secrets_store (new_CliContext (js "/work")) d (js "token") (js "new") in
  secrets_get c (js "token") = Json (JString (js "new"))
  /\ files d' secrets_json = Some (FileText (jsq "{'token':'old'}")).
Proof.
  intros d.
  destruct (secrets_store (new_CliContext (js "/work")) d (js "token") (js "new"))
    as [c d'] eqn:E.
  injection E as <- <-.
  destruct (saveState_stops_at_first_failure
              (fst (secrets_store (new_CliContext (js "/work")) d (js "token") (js "new")))
              d) as (_ & H & _).
  destruct (H eq_refl eq_refl) as (_ & _ & Hs & _).
  split; [reflexivity | exact Hs].
Defined.

(** ** The provider configuration *)



(** ** The history *)



(** X8. When the history file cannot be written, or holds a JSON text that
    is no array, no call of [saveToHistory] changes the disk: the record of
    the turn is dropped with a warning, and so is that of every later turn. *)
Theorem history_stuck :
  forall (d : Disk) (calls : list Call),
    read_only d task_history_json = true \/ is_array (getTaskHistory d) = false ->
    save_all calls d = d.
Proof.
  intros d calls H. induction calls as [|k calls IH]; [reflexivity|].
  simpl. replace (saveToHistory _ _ _ _ d) with d; [exact IH|].
  unfold saveToHistory, saveTaskHistory.
  destruct H as [H|H].
  - destruct (getTaskHistory d); try reflexivity. now rewrite writeFile_fails.
  - destruct (getTaskHistory d); try reflexivity. discriminate.
Qed.

Lemma history_stuck_witness :
  let d := {| files := fun f => match f with
                                | task_history_json => Some (FileText (jsq "{}"))
                                | _ => None
                                end;
              read_only := fun _ => false |} in
  save_all [{| call_now_id := 5; call_now_ts := 5; call_task := js "task";
               call_response := js "answer" |}] d = d.
Proof.
  intros d. apply history_stuck. right. reflexivity.
Defined.

(** ** What the handlers yield *)

(** A property of chunks that every chunk of the loop body has, and every
    Error chunk, holds of all that a handler yields. *)
Section ChunkInvariant.

Variable P : Chunk -> bool.
Variable lb : jsstring -> LineOutcome.
Hypothesis lb_P : forall line, forallb P (chunks (lb line)) = true.
Hypothesis Error_P : forall text, P (Error text) = true.

Lemma for_lines_all (lines : list jsstring) :
  forallb P (chunks (for_lines lb lines)) = true.
Proof.
  induction lines as [|l lines IH]; simpl; [reflexivity|].
  pose proof (lb_P l) as Hl. destruct (lb l) as [o|o]; simpl in *; [|exact Hl].
  destruct (for_lines lb lines) as [o'|o']; simpl in *;
    rewrite forallb_app, Hl, IH; reflexivity.
Qed.

Lemma read_loop_all (reads : list ReadResult) :
  forall dec buf, forallb P (fst (read_loop lb reads dec buf)) = true.
Proof.
  induction reads as [|[value|e] reads IH]; intros dec buf; simpl;
    try reflexivity.
  destruct (decode dec value) as [dec' text].
  pose proof (for_lines_all (removelast (split_lf (buf ++ text)))) as Hf.
  destruct (for_lines lb _) as [o|o]; simpl in *; [|exact Hf].
  specialize (IH dec' (last (split_lf (buf ++ text)) [])).
  destruct (read_loop lb reads dec' _) as [o' c]. simpl in *.
  now rewrite forallb_app, Hf, IH.
Qed.

Lemma try_catch_all (answer : FetchOutcome) :
  forallb P (try_catch lb answer) = true.
Proof.
  unfold try_catch.
  assert (H : forallb P (fst (try_block lb answer)) = true).
  { unfold try_block. destruct answer as [e|r]; [reflexivity|].
    destruct (negb (ok r)); [reflexivity|].
    destruct (response_body r); [apply read_loop_all | reflexivity]. }
  destruct (try_block lb answer) as [out [|e]]; simpl in H; [exact H|].
  rewrite forallb_app, H. simpl. now rewrite Error_P.
Qed.

End ChunkInvariant.

Lemma line_body_truthy (h : SimpleApiHandler) (line : jsstring) :
  forallb truthy_payload (chunks (line_body_of h line)) = true.
Proof.
  assert (Hsse : forall delta,
             (forall parsed out, delta parsed = Some out ->
                                 forallb truthy_payload out = true) ->
             forallb truthy_payload (chunks (sse_line delta line)) = true).
  { intros delta Hd. unfold sse_line.
    repeat (break_match; try reflexivity). simpl. eauto. }
  destruct h; simpl; try reflexivity.
  - apply Hsse. intros parsed out H.
    destruct (anthropic_delta_cases parsed) as [E|[E|(t & _ & Ht & _ & E)]];
      rewrite E in H; try discriminate; injection H as <-;
      cbn [forallb truthy_payload]; [reflexivity | now rewrite Ht].
  - apply Hsse. intros parsed out H.
    destruct (openai_delta_cases parsed) as [E|[E|(t & _ & Ht & E)]];
      rewrite E in H; try discriminate; injection H as <-;
      cbn [forallb truthy_payload]; [reflexivity | now rewrite Ht].
  - apply Hsse. intros parsed out H.
    destruct (openai_delta_cases parsed) as [E|[E|(t & _ & Ht & E)]];
      rewrite E in H; try discriminate; injection H as <-;
      cbn [forallb truthy_payload]; [reflexivity | now rewrite Ht].
  - destruct (JSON_parse line) as [v|] eqn:Ep.
    + destruct (ollama_line_parsed line v Ep) as [-> _].
      destruct (path_value (Json v) _) as [|content]; [reflexivity|].
      destruct (ToBoolean (Json content)) eqn:E; cbn [chunks forallb truthy_payload];
        [now rewrite E | reflexivity].
    + now rewrite ollama_line_unparsed.
Qed.

(** X9. No handler ever yields a Text chunk whose payload is falsy: not the
    empty string, nor [null], [false] or zero.  This holds for every answer
    of the network, faults included. *)
Theorem text_payloads_truthy :
  forall (h : SimpleApiHandler) (sp um : jsstring) (fetch : Network),
    forallb truthy_payload (createMessage h sp um fetch) = true.
Proof.
  intros h sp um fetch.
  destruct (talks_to_network h) eqn:Hn.
  - destruct (createMessage_network h sp um fetch Hn) as (rq & _ & ->).
    apply try_catch_all; [apply line_body_truthy | reflexivity].
  - destruct h; try discriminate. reflexivity.
Qed.

(** X10. Chunks are final once yielded: what a handler yields for the reads
    received so far is the beginning of what it yields when more reads
    follow, whatever they deliver or throw. *)
Theorem chunks_only_grow :
  forall (h : SimpleApiHandler) (sp um : jsstring) (r : Response)
         (bs : list (list byte)) (tail : list ReadResult),
    ok r = true ->
    exists more,
      createMessage h sp um (answering (with_body r (map ReadValue bs ++ tail)))
      = createMessage h sp um (answering (with_body r (map ReadValue bs))) ++ more.
Proof.
  intros h sp um r bs tail Hok.
  destruct (talks_to_network h) eqn:Hn.
  - rewrite (createMessage_values h sp um r bs Hok Hn).
    destruct (createMessage_network h sp um
                (answering (with_body r (map ReadValue bs ++ tail))) Hn) as (rq & _ & ->).
    unfold answering, try_catch, try_block, with_body, ok in *. simpl.
    rewrite Hok. simpl.
    rewrite read_loop_values by reflexivity.
    rewrite decoded_eq. simpl app.
    destruct (for_lines (line_body_of h) _) as [out|out]; simpl.
    + destruct (read_loop (line_body_of h) tail _ _) as [out' [|e]].
      * now exists out'.
      * exists (out' ++ [Error (js "Error: " ++ Error_toString e)]).
        now rewrite app_assoc.
    + exists []. now rewrite app_nil_r.
  - destruct h; try discriminate. exists []. reflexivity.
Qed.

Lemma chunks_only_grow_witness :
  let h := OllamaSimpleHandler (js "http://localhost:11434") (js "llama3.2") in
  let bs := [bytes_of (jsq "{'message':{'content':'Hel'}}" ++ nl)] in
  let tail := [ReadValue (bytes_of (jsq "{'message':{'content':'lo'}}" ++ nl));
               ReadThrow (new_Error (js "reset"))] in
  exists more,
    createMessage h [] [] (answering (with_body OK_response (map ReadValue bs ++ tail)))
    = [Text (JString (js "Hel"))] ++ more.
Proof.
  intros h bs tail.
  exact (chunks_only_grow h [] [] OK_response bs tail eq_refl).
Defined.

Lemma for_lines_no_return (lb : jsstring -> LineOutcome) (lines : list jsstring) :
  Forall (fun line => returns (lb line) = false) lines ->
  for_lines lb lines = Next (flat_map (fun line => chunks (lb line)) lines).
Proof.
  induction 1 as [|l lines Hl _ IH]; simpl; [reflexivity|].
  destruct (lb l) as [o|o]; [|discriminate]. now rewrite IH.
Qed.

(** X11. A body that ends without a sentinel ends the sequence in the
    ordinary way: every complete line yields its chunks, in order, and there
    is no Error chunk. *)
Theorem stream_without_sentinel :
  forall (h : SimpleApiHandler) (sp um : jsstring) (r : Response)
         (bs : list (list byte)),
    ok r = true ->
    talks_to_network h = true ->
    Forall (fun line => returns (line_body_of h line) = false)
           (complete_lines (decoded (List.concat bs))) ->
    createMessage h sp um (answering (with_body r (map ReadValue bs)))
    = flat_map (fun line => chunks (line_body_of h line))
               (complete_lines (decoded (List.concat bs)))
    /\ forallb is_Text
         (createMessage h sp um (answering (with_body r (map ReadValue bs)))) = true.
Proof.
  intros h sp um r bs Hok Hn Hall.
  rewrite (createMessage_values h sp um r bs Hok Hn).
  split.
  - now rewrite for_lines_no_return.
  - apply for_lines_text, line_body_text.
Qed.

Lemma stream_without_sentinel_witness :
  let h := SiliconFlowSimpleHandler (js "key") (js "model") in
  let one := jsq "data: {'choices':[{'delta':{'content':'a'}}]}" in
  let two := jsq "data: {'choices':[{'delta':{'content':'b'}}]}" in
  let bs := [bytes_of (one ++ nl ++ nl); bytes_of (two ++ nl)] in
  createMessage h [] [] (answering (with_body OK_response (map ReadValue bs)))
  = [Text (JString (js "a")); Text (JString (js "b"))].
Proof.
  intros h one two bs.
  refine (proj1 (stream_without_sentinel h [] [] OK_response bs eq_refl eq_refl _)).
  repeat constructor.
Defined.

Lemma no_frame_skipped (h : SimpleApiHandler) (line : jsstring) :
  no_frame h line -> line_body_of h line = Next [].
Proof.
  destruct h; simpl; try contradiction; intros H;
    try (unfold sse_line; now rewrite H).
  unfold ollama_line. now rewrite H.
Qed.

(** X12. Lines that are no frames have no effect: a stream yields the same
    chunks with such a line among its complete lines as without it. *)
Theorem lines_that_are_no_frames :
  forall (h : SimpleApiHandler) (sp um : jsstring) (r : Response)
         (bs bs' : list (list byte)) (pre post : list jsstring) (m : jsstring),
    ok r = true ->
    complete_lines (decoded (List.concat bs)) = pre ++ m :: post ->
    complete_lines (decoded (List.concat bs')) = pre ++ post ->
    no_frame h m ->
    createMessage h sp um (answering (with_body r (map ReadValue bs)))
    = createMessage h sp um (answering (with_body r (map ReadValue bs'))).
Proof.
  intros h sp um r bs bs' pre post m Hok Hl Hl' Hm.
  assert (Hn : talks_to_network h = true)
    by (destruct h; try reflexivity; contradiction).
  rewrite !createMessage_values by assumption.
  now rewrite Hl, Hl', (for_lines_skip _ _ _ _ (no_frame_skipped h m Hm)).
Qed.

Lemma lines_that_are_no_frames_witness :
  let h := AnthropicSimpleHandler (js "key") (js "model") in
  let frame := jsq "data: {'type':'content_block_delta','delta':{'text':'Hi'}}" in
  let event := js "event: content_block_delta" in
  let bs := [bytes_of (event ++ nl ++ frame ++ nl ++ nl)] in
  let bs' := [bytes_of (frame ++ nl ++ nl)] in
  createMessage h [] [] (answering (with_body OK_response (map ReadValue bs)))
  = createMessage h [] [] (answering (with_body OK_response (map ReadValue bs'))).
Proof.
  intros h frame event bs bs'.
  exact (lines_that_are_no_frames h [] [] OK_response bs bs' [] [frame; []] event
           eq_refl eq_refl eq_refl eq_refl).
Defined.

(** ** Lines of ASCII text *)

Lemma byte_of_ascii (c : Z) :
  0 <= c < 128 ->
  exists b, Byte.of_N (Z.to_N c) = Some b /\ Z.of_N (Byte.to_N b) = c.
Proof.
  intros Hc. destruct (Byte.of_N (Z.to_N c)) as [b|] eqn:E.
  - exists b. split; [reflexivity|]. apply Byte.to_of_N in E. lia.
  - apply Byte.of_N_None_iff in E. lia.
Qed.

Lemma decode_byte_ascii (d : TextDecoder) (b : byte) :
  utf8 d = utf8_start ->
  0 <= Z.of_N (Byte.to_N b) < 128 ->
  decode_byte d b
  = ({| utf8 := utf8_start; BOM_seen := true |}, [Z.of_N (Byte.to_N b)]).
Proof.
  intros Hd Hb. unfold decode_byte. rewrite Hd.
  set (c := Z.of_N (Byte.to_N b)) in *.
  unfold utf8_handler. simpl bytes_needed. simpl (0 =? 0).
  unfold utf8_lead, in_range.
  replace ((0 <=? c) && (c <=? 127)) with true by lia.
  simpl serialize. replace (c =? 65279) with false by lia.
  rewrite andb_false_r. unfold utf16_units.
  replace (c <=? 65535) with true by lia. reflexivity.
Qed.

(** The decoder gives ASCII bytes back as they are. *)
Lemma decode_ascii (s : jsstring) :
  forall d, utf8 d = utf8_start -> ascii_text s ->
            snd (decode d (bytes_of s)) = s
            /\ utf8 (fst (decode d (bytes_of s))) = utf8_start.
Proof.
  induction s as [|c s IH]; intros d Hd Hs; [now split|].
  inversion Hs as [|? ? Hc Hs']; subst.
  destruct (byte_of_ascii c Hc) as (b & Eb & Ec).
  simpl. rewrite Eb, decode_byte_ascii by (rewrite ?Ec; assumption).
  specialize (IH {| utf8 := utf8_start; BOM_seen := true |} eq_refl Hs').
  destruct (decode _ (bytes_of s)) as [d2 out2]. simpl in *.
  destruct IH as [-> ->]. now rewrite Ec.
Qed.

Lemma decoded_ascii (s : jsstring) : ascii_text s -> decoded (bytes_of s) = s.
Proof. intros H. exact (proj1 (decode_ascii s new_TextDecoder eq_refl H)). Qed.

Lemma complete_lines_no_LF (s : jsstring) :
  no_LF s -> complete_lines s = [] /\ last_segment s = s.
Proof.
  unfold no_LF. induction s as [|c s IH]; intros H; [now split|].
  rewrite complete_lines_cons, last_segment_cons.
  destruct (c =? LF) eqn:E.
  - apply Z.eqb_eq in E. exfalso. apply H. now left.
  - destruct IH as [-> ->]; [|now split]. intros Hin. apply H. now right.
Qed.

Lemma complete_lines_line (l rest : jsstring) :
  no_LF l ->
  complete_lines (l ++ LF :: rest) = l :: complete_lines rest
  /\ last_segment (l ++ LF :: rest) = last_segment rest.
Proof.
  unfold no_LF. induction l as [|c l IH]; intros H.
  - simpl app. rewrite complete_lines_cons, last_segment_cons, Z.eqb_refl. now split.
  - rewrite <- app_comm_cons, complete_lines_cons, last_segment_cons.
    destruct (c =? LF) eqn:E.
    + apply Z.eqb_eq in E. exfalso. apply H. now left.
    + destruct IH as [-> ->]; [|now split]. intros Hin. apply H. now right.
Qed.

(** Splitting undoes joining: the complete lines of lines that are each
    followed by a line feed, and then by a fragment without one, are those
    lines, and the fragment is what stays in the buffer. *)
Lemma complete_lines_join (lines : list jsstring) (fragment : jsstring) :
  Forall no_LF lines -> no_LF fragment ->
  complete_lines (join_lines lines ++ fragment) = lines
  /\ last_segment (join_lines lines ++ fragment) = fragment.
Proof.
  intros Hl Hf. induction Hl as [|l lines Hl _ IH].
  - simpl. now apply complete_lines_no_LF.
  - unfold join_lines in *. simpl. rewrite <- !app_assoc. simpl.
    destruct (complete_lines_line l (List.concat (map (fun l0 => l0 ++ [LF]) lines)
                                     ++ fragment) Hl) as [-> ->].
    destruct IH as [-> ->]. now split.
Qed.

Lemma ascii_app (a b : jsstring) : ascii_text a -> ascii_text b -> ascii_text (a ++ b).
Proof. unfold ascii_text. intros Ha Hb. apply Forall_app. now split. Qed.

Lemma ascii_join (lines : list jsstring) : Forall ascii_text lines -> ascii_text (join_lines lines).
Proof.
  induction 1 as [|l lines Hl _ IH]; [constructor|].
  unfold join_lines in *. simpl. apply ascii_app; [|exact IH].
  apply ascii_app; [exact Hl|]. repeat constructor; unfold LF; lia.
Qed.

(** X13. Frames are the lines that end in a line feed.  When the body is the
    bytes of ASCII lines, each followed by a line feed, and of a last
    fragment without one, cut into reads in any way, the handler runs its
    frame decoder on exactly those lines, in order, up to the first that
    returns; the fragment is never decoded, not even when the body ends. *)
Theorem frames_are_terminated_lines :
  forall (h : SimpleApiHandler) (sp um : jsstring) (r : Response)
         (bs : list (list byte)) (lines : list jsstring) (fragment : jsstring),
    ok r = true ->
    talks_to_network h = true ->
    List.concat bs = bytes_of (join_lines lines ++ fragment) ->
    Forall ascii_text lines -> Forall no_LF lines ->
    ascii_text fragment -> no_LF fragment ->
    createMessage h sp um (answering (with_body r (map ReadValue bs)))
    = chunks (for_lines (line_body_of h) lines).
Proof.
  intros h sp um r bs lines fragment Hok Hn Hbs Ha Hl Hfa Hfl.
  rewrite (createMessage_values h sp um r bs Hok Hn), Hbs.
  rewrite decoded_ascii by (apply ascii_app; [now apply ascii_join | exact Hfa]).
  now rewrite (proj1 (complete_lines_join lines fragment Hl Hfl)).
Qed.

Lemma frames_are_terminated_lines_witness :
  let h := OllamaSimpleHandler (js "http://localhost:11434") (js "llama3.2") in
  let one := jsq "{'message':{'content':'Hel'}}" in
  let two := jsq "{'message':{'content':'lo'},'done':true}" in
  let text := one ++ nl ++ two in
  let bs := [bytes_of (firstn 10 text); bytes_of (skipn 10 text)] in
  createMessage h [] [] (answering (with_body OK_response (map ReadValue bs)))
  = [Text (JString (js "Hel"))].
Proof.
  intros h one two text bs.
  refine (frames_are_terminated_lines h [] [] OK_response bs [one] two
            eq_refl eq_refl eq_refl _ _ _ _).
  - repeat constructor; vm_compute; intuition discriminate.
  - repeat constructor. unfold no_LF. vm_compute. intuition discriminate.
  - repeat constructor; vm_compute; intuition discriminate.
  - unfold no_LF. vm_compute. intuition discriminate.
Defined.

(** ** Payloads and sentinels, in full *)

(** X14. The payload of a Text chunk is the JSON value at the delta path,
    whatever its type: a frame with a truthy value there (a string that is
    not empty, a number other than zero, [true], an array, an object) yields
    one Text chunk with that very value, and a frame with a falsy value
    ([null], [false], zero, the empty string) yields nothing. *)
Theorem payload_is_value_at_path :
  forall (h : SimpleApiHandler) (line : jsstring) (v : json),
    carries_value h line v ->
    chunks (line_body_of h line) = if ToBoolean (Json v) then [Text v] else [].
Proof.
  intros h line v (data & parsed & Hf & Hp & He & Hd).
  assert (Hsse : forall delta,
             (if startsWith line (js "data: ") then Some (slice line 6) else None)
             = Some data ->
             delta parsed = Some (if ToBoolean (Json v) then [Text v] else []) ->
             chunks (sse_line delta line) =
             if ToBoolean (Json v) then [Text v] else []).
  { intros delta Hfr Hdelta.
    destruct (startsWith line (js "data: ")) eqn:Hs; [|discriminate].
    assert (data = slice line 6) as -> by congruence.
    rewrite sse_line_frame, Hp, Hdelta; [reflexivity | exact Hs |].
    intros E. rewrite E, DONE_is_no_JSON in Hp. discriminate. }
  destruct h; cbn [frame_of delta_path delta_event line_body_of] in *.
  - apply Hsse; [exact Hf|]. now apply anthropic_delta_carries.
  - apply Hsse; [exact Hf|]. now apply openai_delta_carries.
  - apply Hsse; [exact Hf|]. now apply openai_delta_carries.
  - assert (data = line) as -> by congruence.
    destruct (ollama_line_parsed line parsed Hp) as [-> _]. now rewrite Hd.
  - discriminate.
Qed.

Lemma payload_is_value_at_path_witness :
  let h := OpenAISimpleHandler (js "key") (js "gpt-4o") in
  chunks (line_body_of h (jsq "data: {'choices':[{'delta':{'content':42}}]}"))
  = [Text (JNumber false 42 0)]
  /\ chunks (line_body_of h (jsq "data: {'choices':[{'delta':{'content':0.0}}]}"))
     = [].
Proof.
  intros h. split.
  - refine (payload_is_value_at_path h _ (JNumber false 42 0) _).
    eexists. eexists. repeat split; reflexivity.
  - refine (payload_is_value_at_path h _ (JNumber false 0 (-1)) _).
    eexists. eexists. repeat split; reflexivity.
Defined.

Lemma startsWith_split (line p : jsstring) :
  startsWith line p = true -> line = p ++ slice line (List.length p).
Proof.
  revert line; induction p as [|x p IH]; intros line H; [reflexivity|].
  destruct line as [|y line]; [discriminate|]. simpl in H.
  apply andb_true_iff in H as [Hxy Hp]. apply Z.eqb_eq in Hxy. subst y.
  simpl. f_equal. now apply IH.
Qed.

(** X15. What ends a stream, exactly.  A server-sent-event handler returns
    on a line if and only if the line is [data: [DONE]], character for
    character.  The Ollama handler returns on a line that parses if and only
    if the value of its [done] property is truthy, and never on a line that
    does not parse. *)
Theorem what_ends_a_stream :
  forall (h : SimpleApiHandler) (line : jsstring),
    talks_to_network h = true ->
    (is_Ollama h = false ->
     (returns (line_body_of h line) = true <-> line = js "data: [DONE]"))
    /\ (is_Ollama h = true ->
        (forall v, JSON_parse line = Some v ->
                   returns (line_body_of h line)
                   = ToBoolean (path_value (Json v) [js "done"]))
        /\ (JSON_parse line = None -> returns (line_body_of h line) = false)).
Proof.
  intros h line Hn.
  assert (Hsse : forall delta,
             returns (sse_line delta line) = true <-> line = js "data: [DONE]").
  { intros delta. split.
    - unfold sse_line. intros H.
      destruct (startsWith line (js "data: ")) eqn:Hs; [|discriminate].
      destruct (str_eqb (slice line 6) (js "[DONE]")) eqn:Hd.
      + apply str_eqb_eq in Hd. apply startsWith_split in Hs.
        change (List.length (js "data: ")) with 6%nat in Hs.
        rewrite Hs, Hd. reflexivity.
      + destruct (JSON_parse _); [destruct (delta _)|]; discriminate.
    - intros ->. reflexivity. }
  destruct h; try discriminate; cbn [is_Ollama line_body_of];
    (split; [intros H; first [discriminate H | apply Hsse]
            | intros H; try discriminate H]).
  split.
  - intros v Hp. exact (proj2 (ollama_line_parsed line v Hp)).
  - intros Hp. now rewrite ollama_line_unparsed.
Qed.

Lemma what_ends_a_stream_witness :
  let h := OllamaSimpleHandler (js "http://localhost:11434") (js "llama3.2") in
  returns (line_body_of h (jsq "{'done':1}")) = true
  /\ returns (line_body_of h (jsq "{'done':'no'}")) = true
  /\ returns (line_body_of h (jsq "{'done':false}")) = false.
Proof.
  intros h.
  destruct (what_ends_a_stream h (jsq "{'done':1}") eq_refl) as [_ H1].
  destruct (what_ends_a_stream h (jsq "{'done':'no'}") eq_refl) as [_ H2].
  destruct (what_ends_a_stream h (jsq "{'done':false}") eq_refl) as [_ H3].
  split; [|split].
  - exact (proj1 (H1 eq_refl) _ eq_refl).
  - exact (proj1 (H2 eq_refl) _ eq_refl).
  - exact (proj1 (H3 eq_refl) _ eq_refl).
Defined.

(** ** A turn *)






(** ** Choosing the configuration *)

Lemma ApiConfiguration_of_literal (provider key model : option jsstring) :
  Index.ApiConfiguration_of (Index.config_literal provider key model)
  = {| apiProvider := provider; apiKey := key; apiModelId := model;
       openAiNativeApiKey := None; ollamaBaseUrl := None |}.
Proof. destruct provider, key, model; reflexivity. Qed.



Lemma getDefaultModel_choices (provider : jsstring) :
  In provider Index.choices -> Index.getDefaultModel provider <> [].
Proof.
  unfold Index.choices. simpl.
  intros [<-|[<-|[<-|[<-|[<-|[<-|[]]]]]]]; discriminate.
Qed.

(** X19. What [configureSettings] saves is what the next start loads.
    After it has run, [loadApiConfiguration] without [--api-key],
    [--provider] and [--config] returns the configuration made of the
    answers: the provider chosen, the key entered, and the model entered or,
    when none was entered, the default of the provider, which is never
    empty. *)
Theorem configured_then_loaded :
  forall (a : Index.Answers) (d d' : Disk) (options : Index.Options)
         (elsewhere : jsstring -> option FileContent),
    Index.possible a ->
    Index.configureSettings a d = Some d' ->
    Index.given (Index.options_apiKey options) = None
    \/ Index.given (Index.options_provider options) = None ->
    Index.given (Index.options_config options) = None ->
    Index.loadApiConfiguration options elsewhere d' = Index.configured a
    /\ Index.ApiConfiguration_of (Index.configured a)
       = {| apiProvider := Some (Index.answers_provider a);
            apiKey := Index.answers_apiKey a;
            apiModelId := Some (stored_model a);
            openAiNativeApiKey := None; ollamaBaseUrl := None |}
    /\ stored_model a <> [].
Proof.
  intros a d d' options elsewhere [Hp _] Hsave Hopt Hcfg. split; [|split].
  - unfold Index.loadApiConfiguration. rewrite Hcfg.
    assert (E : getApiConfiguration d' = Index.configured a).
    { unfold Index.configureSettings, saveApiConfiguration in Hsave.
      unfold getApiConfiguration, read_json.
      now rewrite (writeFile_same _ _ _ _ Hsave). }
    rewrite E.
    destruct Hopt as [-> | ->];
      [|destruct (Index.given (Index.options_apiKey options))]; reflexivity.
  - unfold Index.configured. now rewrite ApiConfiguration_of_literal.
  - unfold stored_model. destruct (Index.answers_model a); [|discriminate].
    now apply getDefaultModel_choices.
Qed.

Lemma configured_then_loaded_witness :
  let a := {| Index.answers_provider := js "ollama"; Index.answers_apiKey := None;
              Index.answers_model := [] |} in
  let d := {| files := fun _ => None; read_only := fun _ => false |} in
  let options := {| Index.options_directory := js "."; Index.options_config := None;
                    Index.options_apiKey := None; Index.options_model := None;
                    Index.options_provider := None;
                    Index.options_autoApprove := false |} in
  exists d', Index.configureSettings a d = Some d'
             /\ Index.loadApiConfiguration options (fun _ => None) d'
                = JObject [(js "apiProvider", JString (js "ollama"));
                           (js "apiModelId", JString (js "llama3.2"))].
Proof.
  intros a d options. eexists. split; [reflexivity|].
  refine (proj1 (configured_then_loaded a d _ options (fun _ => None) _ eq_refl
                   (or_introl eq_refl) eq_refl)).
  split; [|reflexivity]. simpl. tauto.
Defined.

Lemma handler_for_eq (a : Index.Answers) :
  handler_for a =
  buildSimpleApiHandler
    {| apiProvider := Some (Index.answers_provider a);
       apiKey := Index.answers_apiKey a;
       apiModelId := Some (stored_model a);
       openAiNativeApiKey := None; ollamaBaseUrl := None |}.
Proof.
  unfold handler_for, Index.configured. now rewrite ApiConfiguration_of_literal.
Qed.

(** X20. Of the six providers [configureSettings] offers, four get a handler
    that talks to the network.  For [openrouter] and [gemini] the controller
    builds the mock handler, so every turn answers with the mock notice and
    no request is sent. *)
Theorem offered_providers_and_handlers :
  forall (a : Index.Answers) (sp um : jsstring) (fetch : Network),
    Index.possible a ->
    (talks_to_network (handler_for a) = false
     <-> Index.answers_provider a = js "openrouter"
         \/ Index.answers_provider a = js "gemini")
    /\ (talks_to_network (handler_for a) = false ->
        exists text, createMessage (handler_for a) sp um fetch = [Text (JString text)]
                     /\ mentions text (Index.answers_provider a)
                     /\ request_of (handler_for a) sp um = None).
Proof.
  intros a sp um fetch [Hp _]. rewrite handler_for_eq. split.
  - unfold Index.choices in Hp. simpl in Hp.
    destruct Hp as [E|[E|[E|[E|[E|[E|[]]]]]]]; rewrite <- E; split;
      try (intros _; tauto); try discriminate;
      intros [H|H]; vm_compute in H; discriminate H.
  - intros Hn.
    set (config := {| apiProvider := Some (Index.answers_provider a);
                      apiKey := Index.answers_apiKey a;
                      apiModelId := Some (stored_model a);
                      openAiNativeApiKey := None; ollamaBaseUrl := None |}) in *.
    assert (E : buildSimpleApiHandler config = MockSimpleHandler config).
    { unfold buildSimpleApiHandler in *. subst config. cbn [apiProvider] in *.
      destruct (str_eqb (Index.answers_provider a) (js "anthropic"));
        [discriminate Hn|].
      destruct (str_eqb (Index.answers_provider a) (js "openai-native"));
        [discriminate Hn|].
      destruct (str_eqb (Index.answers_provider a) (js "siliconflow"));
        [discriminate Hn|].
      destruct (str_eqb (Index.answers_provider a) (js "ollama"));
        [discriminate Hn|].
      reflexivity. }
    rewrite E. eexists. split; [reflexivity|]. split; [|reflexivity].
    unfold mentions, mock_text. simpl apiProvider. eexists. eexists. reflexivity.
Qed.

Lemma offered_providers_and_handlers_witness :
  let a := {| Index.answers_provider := js "gemini";
              Index.answers_apiKey := Some (js "AIza");
              Index.answers_model := [] |} in
  talks_to_network (handler_for a) = false
  /\ exists text, createMessage (handler_for a) [] (js "hi") (answering OK_response)
                  = [Text (JString text)]
                  /\ mentions text (js "gemini")
                  /\ request_of (handler_for a) [] (js "hi") = None.
Proof.
  intros a.
  assert (Hp : Index.possible a).
  { split; [simpl; tauto|]. split; discriminate. }
  destruct (offered_providers_and_handlers a [] (js "hi") (answering OK_response) Hp)
    as [H1 H2].
  assert (Hn : talks_to_network (handler_for a) = false)
    by (apply H1; right; reflexivity).
  exact (conj Hn (H2 Hn)).
Defined.

(** X21. The key entered for OpenAI is never sent.  A configuration made of
    the [--api-key] and [--provider] options, or of the answers of
    [configureSettings], carries the key in [apiKey]; the OpenAI handler
    reads [openAiNativeApiKey].  So with the provider [openai-native] every
    request goes out with the header [Authorization: Bearer ] and no key,
    whatever key was given, while the same key given for [anthropic] is sent
    as [x-api-key]. *)
Theorem openai_key_is_not_sent :
  forall (key : jsstring) (model : option jsstring) (sp um : jsstring),
    key <> [] ->
    (let h := buildSimpleApiHandler
                (Index.ApiConfiguration_of
                   (Index.config_literal (Some (js "openai-native")) (Some key) model)) in
     exists request,
       request_of h sp um = Some request
       /\ headers request = [json_headers; (js "Authorization", js "Bearer ")])
    /\ (let h := buildSimpleApiHandler
                   (Index.ApiConfiguration_of
                      (Index.config_literal (Some (js "anthropic")) (Some key) model)) in
        exists request,
          request_of h sp um = Some request
          /\ headers request = [json_headers; (js "x-api-key", key);
                                (js "anthropic-version", js "2023-06-01")]).
Proof.
  intros key model sp um Hkey. rewrite !ApiConfiguration_of_literal. split.
  - eexists. split; reflexivity.
  - destruct key as [|c key]; [contradiction|]. eexists. split; reflexivity.
Qed.

Lemma openai_key_is_not_sent_witness :
  let h := buildSimpleApiHandler
             (Index.ApiConfiguration_of
                (Index.config_literal (Some (js "openai-native")) (Some (js "sk-live"))
                                      None)) in
  exists request,
    request_of h [] (js "hi") = Some request
    /\ headers request = [json_headers; (js "Authorization", js "Bearer ")].
Proof.
  intros h.
  refine (proj1 (openai_key_is_not_sent (js "sk-live") None [] (js "hi") _)).
  discriminate.
Defined.

(** X22. The two tables of default models agree.  For each of the four
    providers with a handler of its own, the model the handler falls back on
    when the configuration names none is the model [getDefaultModel] gives;
    and the handler built for what [configureSettings] stored reports the
    model entered or, when none was entered, that default. *)
Theorem default_models_agree :
  forall (provider : jsstring) (key : option jsstring) (a : Index.Answers),
    (known_provider provider ->
     getModel (buildSimpleApiHandler
                 (Index.ApiConfiguration_of
                    (Index.config_literal (Some provider) key None)))
     = Index.getDefaultModel provider)
    /\ (Index.possible a -> getModel (handler_for a) = stored_model a).
Proof.
  intros provider key a. split.
  - rewrite ApiConfiguration_of_literal.
    intros [-> | [-> | [-> | ->]]]; reflexivity.
  - intros [Hp _].
    assert (Hm : stored_model a <> []).
    { unfold stored_model. destruct (Index.answers_model a); [|discriminate].
      now apply getDefaultModel_choices. }
    rewrite handler_for_eq.
    destruct (stored_model a) as [|c m] eqn:Em; [contradiction|].
    unfold buildSimpleApiHandler. cbn [apiProvider].
    destruct (str_eqb (Index.answers_provider a) (js "anthropic")); [reflexivity|].
    destruct (str_eqb (Index.answers_provider a) (js "openai-native")); [reflexivity|].
    destruct (str_eqb (Index.answers_provider a) (js "siliconflow")); [reflexivity|].
    destruct (str_eqb (Index.answers_provider a) (js "ollama")); reflexivity.
Qed.

Lemma default_models_agree_witness :
  let a := {| Index.answers_provider := js "siliconflow";
              Index.answers_apiKey := Some (js "sk");
              Index.answers_model := [] |} in
  getModel (buildSimpleApiHandler
              (Index.ApiConfiguration_of
                 (Index.config_literal (Some (js "siliconflow")) (Some (js "sk")) None)))
  = js "Qwen/Qwen2.5-7B-Instruct"
  /\ getModel (handler_for a) = js "Qwen/Qwen2.5-7B-Instruct".
Proof.
  intros a.
  destruct (default_models_agree (js "siliconflow") (Some (js "sk")) a) as [H1 H2].
  split.
  - apply H1. right. right. left. reflexivity.
  - apply H2. split; [simpl; tauto|]. split; discriminate.
Defined.

(** ** The interactive chat *)

Section ChatProperties.

Import InteractiveChat.

Variable toLowerCase : jsstring -> jsstring.

Lemma count_sends_app (a b : list Action) :
  count_sends (a ++ b) = (count_sends a + count_sends b)%nat.
Proof. unfold count_sends. now rewrite filter_app, length_app. Qed.

Lemma run_sends (events : list Event) :
  forall c, (count_sends (run toLowerCase c events)
             <= count_finished events + free_turns c)%nat.
Proof.
  induction events as [|e events IH]; intros c; [unfold count_sends; simpl; lia|].
  simpl run.
  destruct (on_event toLowerCase c e) as [c' actions] eqn:E.
  rewrite count_sends_app. specialize (IH c').
  assert (H : (count_sends actions + count_finished events + free_turns c'
               <= count_finished (e :: events) + free_turns c)%nat);
    [|lia].
  clear IH. unfold on_event in E.
  destruct c as [w x]. unfold free_turns.
  cbn [exited isWaitingForResponse] in *.
  destruct x.
  { injection E as <- <-. unfold count_sends, count_finished. simpl.
    destruct e; simpl; lia. }
  destruct e as [input| | | | | |];
    try (injection E as <- <-; unfold count_sends, count_finished; simpl;
         destruct w; simpl; lia).
  destruct (isExitCommand toLowerCase (trim input));
    [injection E as <- <-; unfold count_sends, count_finished; simpl;
     destruct w; simpl; lia|].
  destruct w;
    [injection E as <- <-; unfold count_sends, count_finished; simpl; lia|].
  destruct (trim input);
    injection E as <- <-; unfold count_sends, count_finished; simpl; lia.
Qed.

(** X23. The chat keeps one turn in flight at most.  However lines, finished
    turns and interrupts follow each other, the messages sent to the
    controller never outnumber by more than one the turns that have
    finished (by [completed], [cancelled], [error] or a rejection): a line
    read while a turn is outstanding either is an exit command or is
    answered with the notice to wait, and is not sent. *)
Theorem one_turn_at_a_time :
  forall (events : list Event) (input : jsstring),
    (count_sends (run toLowerCase new_InteractiveChat events)
     <= count_finished events + 1)%nat
    /\ on_event toLowerCase (waiting true) (Line input)
       = if isExitCommand toLowerCase (trim input)
         then (waiting true, [Exit])
         else (waiting true, [WaitNotice]).
Proof.
  intros events input. split.
  - apply (run_sends events new_InteractiveChat).
  - unfold on_event. simpl.
    now destruct (isExitCommand toLowerCase (trim input)).
Qed.

Lemma sendable_more (e : Event) (events : list Event) (a : Action) :
  sendable toLowerCase events a -> sendable toLowerCase (e :: events) a.
Proof.
  destruct a; simpl; auto.
  intros (H1 & H2 & input & Hin & Hm). repeat split; auto.
  exists input. auto.
Qed.

Lemma run_sendable (events : list Event) :
  forall c, Forall (sendable toLowerCase events) (run toLowerCase c events).
Proof.
  induction events as [|e events IH]; intros c; [constructor|].
  simpl run.
  destruct (on_event toLowerCase c e) as [c' actions] eqn:E.
  apply Forall_app. split.
  - unfold on_event in E.
    destruct (exited c); [injection E as <- <-; constructor|].
    destruct e as [input| | | | | |];
      try (injection E as <- <-; repeat constructor).
    destruct (isExitCommand toLowerCase (trim input)) eqn:Hx;
      [injection E as <- <-; repeat constructor|].
    destruct (isWaitingForResponse c) eqn:Hw.
    + injection E as <- <-. unfold showPrompt. rewrite Hw.
      repeat constructor.
    + destruct (trim input) as [|ch m] eqn:Ht.
      * injection E as <- <-. unfold showPrompt. rewrite Hw.
        repeat constructor.
      * injection E as <- <-. constructor; [|constructor].
        simpl. repeat split; [discriminate | exact Hx |].
        exists input. split; [now left | now rewrite Ht].
  - eapply Forall_impl; [|apply IH]. intros a. apply sendable_more.
Qed.

(** X24. The chat sends the controller only what a user typed to be sent:
    every message sent is a line that was read, with the white space at its
    ends removed, is not empty, and is no exit command. *)
Theorem only_real_messages_sent :
  forall (events : list Event),
    Forall (sendable toLowerCase events) (run toLowerCase new_InteractiveChat events).
Proof. intros events. apply run_sendable. Qed.

End ChatProperties.
